(** * Galaxy annotations for Siril: the annotation pipeline and its properties

    A shallow embedding of [Galaxy_Annotations_102gk2_2.py]: the catalog
    registry, the persisted options, the catalog aggregation (projection,
    bounds filter, type filter, deduplication, ordering), the patch sizer,
    and the thumbnail grid arithmetic.

    Python floats are idealised as real numbers extended with the three
    non-finite values; pandas data frames are lists of rows in index order,
    and a frame without rows is known to have columns or not by the
    frames it was concatenated from ([merged_has_columns]); the host
    (Siril), astropy, pandas' CSV reader and the Simbad service
    are fields of a [World] the pipeline is run in. *)

From Stdlib Require Import Reals Lra Lia ZArith List String Ascii Bool.
From Stdlib Require Import DecimalString.
From Stdlib Require Import Permutation Sorted.
Import ListNotations.

(* ================================================================== *)
(** * Part I: the embedding                                            *)
(* ================================================================== *)

(** ** Exceptions *)

(** A Python computation either returns or raises; [msg] is [str(e)]. *)
Inductive outcome (A : Type) : Type :=
| Ok (a : A)
| Raise (msg : string).
Arguments Ok {A} a.
Arguments Raise {A} msg.

Definition bind {A B : Type} (c : outcome A) (k : A -> outcome B) : outcome B :=
  match c with
  | Ok a => k a
  | Raise m => Raise m
  end.

Notation "x <- c ;; k" := (bind c (fun x => k))
  (at level 61, c at next level, right associativity).
Notation "' p <- c ;; k" := (bind c (fun p => k))
  (at level 61, p pattern, c at next level, right associativity).

Definition returns {A : Type} (c : outcome A) : Prop :=
  exists a, c = Ok a.

Fixpoint mapM {A B : Type} (f : A -> outcome B) (l : list A) : outcome (list B) :=
  match l with
  | [] => Ok []
  | a :: l' => b <- f a ;; bs <- mapM f l' ;; Ok (b :: bs)
  end.

(** ** Floats *)

Inductive pyfloat : Type :=
| Fin (r : R)
| PInf
| NInf
| NaN.

Definition isfinite (f : pyfloat) : bool :=
  match f with Fin _ => true | _ => false end.

Definition isnan (f : pyfloat) : bool :=
  match f with NaN => true | _ => false end.

Definition fadd (a b : pyfloat) : pyfloat :=
  match a, b with
  | NaN, _ | _, NaN => NaN
  | Fin x, Fin y => Fin (x + y)
  | PInf, NInf | NInf, PInf => NaN
  | PInf, _ | _, PInf => PInf
  | NInf, _ | _, NInf => NInf
  end.

Definition fneg (a : pyfloat) : pyfloat :=
  match a with
  | Fin x => Fin (- x)
  | PInf => NInf
  | NInf => PInf
  | NaN => NaN
  end.

Definition fsub (a b : pyfloat) : pyfloat := fadd a (fneg b).

Definition fabs (a : pyfloat) : pyfloat :=
  match a with
  | Fin x => Fin (Rabs x)
  | PInf | NInf => PInf
  | NaN => NaN
  end.

(** The sign of a finite factor decides what it does to an infinity. *)
Definition scale_inf (x : R) (pos : bool) : pyfloat :=
  if Req_dec_T x 0 then NaN
  else if Rlt_dec 0 x then (if pos then PInf else NInf)
  else (if pos then NInf else PInf).

Definition fmul (a b : pyfloat) : pyfloat :=
  match a, b with
  | NaN, _ | _, NaN => NaN
  | Fin x, Fin y => Fin (x * y)
  | Fin x, PInf | PInf, Fin x => scale_inf x true
  | Fin x, NInf | NInf, Fin x => scale_inf x false
  | PInf, PInf | NInf, NInf => PInf
  | PInf, NInf | NInf, PInf => NInf
  end.

(** [a / c] for a positive literal [c] (the source divides by 2.0, 60.0
    and 100 only). *)
Definition fdiv_const (a : pyfloat) (c : R) : pyfloat :=
  match a with
  | Fin x => Fin (x / c)
  | other => other
  end.

(** [a > b]; every comparison with a NaN is false. *)
Definition fgtb (a b : pyfloat) : bool :=
  match a, b with
  | NaN, _ | _, NaN => false
  | Fin x, Fin y => if Rlt_dec y x then true else false
  | PInf, PInf => false
  | PInf, _ => true
  | _, PInf => false
  | NInf, _ => false
  | Fin _, NInf => true
  end.

(** [a == 0] *)
Definition fis_zero (a : pyfloat) : bool :=
  match a with
  | Fin x => if Req_dec_T x 0 then true else false
  | _ => false
  end.

(** [max([a, b])]: the builtin keeps the first item unless a later one
    compares greater. *)
Definition py_max2 (a b : pyfloat) : pyfloat :=
  if fgtb b a then b else a.

Definition hypot (x y : R) : R := sqrt (x * x + y * y).

(** [math.hypot]: an infinite argument wins over a NaN. *)
Definition fhypot (a b : pyfloat) : pyfloat :=
  match a, b with
  | Fin x, Fin y => Fin (hypot x y)
  | PInf, _ | NInf, _ | _, PInf | _, NInf => PInf
  | _, _ => NaN
  end.

(** [round(x)] on a float: to the nearest integer, ties to the even one. *)
Definition py_round (r : R) : Z :=
  let f := Zfloor r in
  let d := (r - IZR f)%R in
  if Rlt_dec d (1 / 2) then f
  else if Rlt_dec (1 / 2) d then (f + 1)%Z
  else if Z.even f then f else (f + 1)%Z.

(** [int(round(x))]: [round] raises ValueError on a NaN and OverflowError
    on an infinity. *)
Definition int_round (f : pyfloat) : outcome Z :=
  match f with
  | Fin r => Ok (py_round r)
  | NaN => Raise "cannot convert float NaN to integer"
  | PInf | NInf => Raise "cannot convert float infinity to integer"
  end.

(** [round] of an integer quotient [n / d] ([d > 0]), computed on the
    integers: the executable counterpart of [py_round (n / d)]. *)
Definition round_div (n d : Z) : Z :=
  let q := (n / d)%Z in
  let r := (n mod d)%Z in
  if (2 * r <? d)%Z then q
  else if (d <? 2 * r)%Z then (q + 1)%Z
  else if Z.even q then q else (q + 1)%Z.

(** ** Strings *)

Definition str_of_nat (n : nat) : string :=
  NilZero.string_of_uint (Nat.to_uint n).

(** [f"{i:02d}"] *)
Definition fmt_02d (i : nat) : string :=
  if (i <? 10)%nat then String "0" (str_of_nat i) else str_of_nat i.

(** ASCII white space as [str.strip] and [str.isspace] see it. *)
Definition is_space (c : ascii) : bool :=
  let n := nat_of_ascii c in
  ((9 <=? n) && (n <=? 13) || (28 <=? n) && (n <=? 32))%nat.

Fixpoint lstrip (s : string) : string :=
  match s with
  | String c s' => if is_space c then lstrip s' else s
  | EmptyString => EmptyString
  end.

Fixpoint rstrip (s : string) : string :=
  match s with
  | String c s' =>
      match rstrip s' with
      | EmptyString => if is_space c then EmptyString else String c EmptyString
      | t => String c t
      end
  | EmptyString => EmptyString
  end.

Definition strip (s : string) : string := rstrip (lstrip s).

(** [x.replace(' ', '')] *)
Fixpoint remove_spaces (s : string) : string :=
  match s with
  | String c s' =>
      if Ascii.eqb c " " then remove_spaces s' else String c (remove_spaces s')
  | EmptyString => EmptyString
  end.

Definition is_alnum (c : ascii) : bool :=
  let n := nat_of_ascii c in
  ((48 <=? n) && (n <=? 57) || (65 <=? n) && (n <=? 90)
   || (97 <=? n) && (n <=? 122))%nat.

(** The group of [re.match(r'^([A-Za-z0-9]+)', s)], empty when there is
    no match. *)
Fixpoint leading_alnum (s : string) : string :=
  match s with
  | String c s' => if is_alnum c then String c (leading_alnum s') else EmptyString
  | EmptyString => EmptyString
  end.

Definition in_strs (s : string) (l : list string) : bool :=
  existsb (String.eqb s) l.

(** ** The catalog registry *)

(** [class CatalogEntry]; [checkbox_var] is [None] until the GUI builds
    its check boxes, then holds the state of the box. *)
Record CatalogEntry : Type := mkCatalogEntry {
  description : option string;
  color : string;
  selection_default : bool;
  checkbox_var : option bool
}.

Definition new_CatalogEntry (d : option string) (c : string) (sel : bool)
  : CatalogEntry :=
  mkCatalogEntry d c sel None.

Definition get_selected (e : CatalogEntry) : bool :=
  match checkbox_var e with
  | None => selection_default e
  | Some b => b
  end.

(** A dict keeps insertion order, and the order is used (sort keys, the
    order of the enabled codes): an association list. *)
Definition Catalogs : Type := list (string * CatalogEntry).

Fixpoint lookup (key : string) (c : Catalogs) : option CatalogEntry :=
  match c with
  | [] => None
  | (k, e) :: c' => if String.eqb key k then Some e else lookup key c'
  end.

Definition keys (c : Catalogs) : list string := map fst c.

(** [self.catalogs] as [AnnotationsScriptInterface.__init__] builds it. *)
Definition registry : Catalogs :=
  [ ("M"%string, new_CatalogEntry (Some "Messier Catalog"%string) "#80ff80" true);
    ("IC"%string, new_CatalogEntry (Some "Index Catalogue"%string) "#80ffff" true);
    ("NGC"%string, new_CatalogEntry (Some "New General Catalogue"%string) "#ffffff" true);
    ("MGC"%string, new_CatalogEntry (Some "Millennium Galaxy Catalogue"%string) "#30a500" false);
    ("UGC"%string, new_CatalogEntry (Some "Uppsala General Catalogue"%string) "#3abed1" false);
    ("MCG"%string, new_CatalogEntry (Some "Morphological Catalogue of Galaxies"%string) "#955ec2" false);
    ("Mrk"%string, new_CatalogEntry (Some "Markarian galaxies"%string) "#fbbd70" false);
    ("LEDA"%string, new_CatalogEntry (Some "Lyon-Meudon Extragalactic Database"%string) "#c29d94" false);
    ("Z"%string, new_CatalogEntry (Some "Zwicky Catalogue of galaxies and of clusters of galaxies"%string) "#fb9795" false);
    ("Gaia"%string, new_CatalogEntry (Some "Gaia catalogues"%string) "#c6aed8" false);
    ("2MASX"%string, new_CatalogEntry (Some "Two Micron All Sky Survey, Extended source catalogue"%string) "#895447" false);
    ("SDSS"%string, new_CatalogEntry (Some "Sloan Digital Sky Survey"%string) "#b2c5eb" false);
    ("SDSSCGB"%string, new_CatalogEntry (Some "SDSS DR6 Compact Group Catalogue B"%string) "#b2c5eb" false);
    ("UGCA"%string, new_CatalogEntry (Some "Uppsala Selected non-UGC Galaxies"%string) "#f5b3d3" false);
    ("MASS"%string, new_CatalogEntry None "#c8c8c8" false);
    ("MFGC"%string, new_CatalogEntry None "#b9c200" false);
    ("2MFGC"%string, new_CatalogEntry (Some "2MASS Flat Galaxy Catalog"%string) "#d9df85" false);
    ("FIRST"%string, new_CatalogEntry (Some "FIRST Survey Catalogs"%string) "#a3dae7" false);
    ("2MASS"%string, new_CatalogEntry (Some "Two Micron All Sky Survey"%string) "#895447" false) ].

Definition set_checkbox (b : CatalogEntry -> bool) (e : CatalogEntry) : CatalogEntry :=
  mkCatalogEntry (description e) (color e) (selection_default e) (Some (b e)).

Definition map_entries (f : CatalogEntry -> CatalogEntry) (c : Catalogs) : Catalogs :=
  map (fun ke => (fst ke, f (snd ke))) c.

(** [create_widgets] gives every entry a check box set to its default. *)
Definition create_widgets (c : Catalogs) : Catalogs :=
  map_entries (set_checkbox selection_default) c.

Definition select_all (c : Catalogs) : Catalogs :=
  map_entries (set_checkbox (fun _ => true)) c.

Definition select_none (c : Catalogs) : Catalogs :=
  map_entries (set_checkbox (fun _ => false)) c.

Definition select_default (c : Catalogs) : Catalogs :=
  map_entries (set_checkbox selection_default) c.

(** The registry an interface runs the pipeline with: the widgets exist
    only when a Tk root was passed (GUI mode). *)
Definition interface_catalogs (root : bool) : Catalogs :=
  if root then create_widgets registry else registry.

(** [catalogs.get(key) and catalogs[key].get_selected()] *)
Definition selected (c : Catalogs) (key : string) : bool :=
  match lookup key c with
  | Some e => get_selected e
  | None => false
  end.

(** [filter_types]: the codes of the selected entries, in registry order. *)
Definition filter_types (c : Catalogs) : list string :=
  keys (filter (fun ke => get_selected (snd ke)) c).

(** ** The persisted options *)

Record FileSystem : Type := {
  isfile : string -> bool;
  (** [file.readlines()]: the lines, each with its line end *)
  readlines : string -> list string
}.

Definition Config : Type := (option string * pyfloat * string * option string)%type.

Section ConfigFile.

Variable fs : FileSystem.
(** [float(s)]; [None] when it raises ValueError *)
Variable float_of_string : string -> option pyfloat.

Definition py_float (s : string) : outcome pyfloat :=
  match float_of_string s with
  | Some f => Ok f
  | None => Raise "could not convert string to float"
  end.

Definition load_config_file (config_file_path : string) : outcome Config :=
  let logo_path : option string := None in
  let overlay_alpha := Fin (6 / 10) in
  let overlay_type := "circle"%string in
  let selected_catalogs : option string := None in
  if isfile fs config_file_path then
    let lines := readlines fs config_file_path in
    let logo_path :=
      if (0 <? List.length lines)%nat then
        let p := strip (nth 0 lines EmptyString) in
        if negb (isfile fs p) then None else Some p
      else logo_path in
    overlay_alpha <-
      (if (1 <? List.length lines)%nat
       then py_float (strip (nth 1 lines EmptyString))
       else Ok overlay_alpha) ;;
    let overlay_type :=
      if (2 <? List.length lines)%nat then strip (nth 2 lines EmptyString)
      else overlay_type in
    let selected_catalogs :=
      if (3 <? List.length lines)%nat then Some (strip (nth 2 lines EmptyString))
      else selected_catalogs in
    Ok (logo_path, overlay_alpha, overlay_type, selected_catalogs)
  else
    Ok (logo_path, overlay_alpha, overlay_type, selected_catalogs).

End ConfigFile.

(** ** The thumbnail grid *)

(** Lines 475-478 of [annotate_fit]: [np.sqrt], [np.floor], the true
    division and [np.ceil] on reals. *)
Definition grid_size (n : Z) (logo_path : string) : Z * Z :=
  let mincols := if negb (String.eqb logo_path "") then 6%Z else 5%Z in
  let ncols := Z.max mincols (Zfloor (sqrt (IZR n))) in
  let nrows := Zceil (IZR n / IZR ncols) in
  (nrows, ncols).

(** The same grid computed on the integers. *)
Definition grid_size_int (n : Z) (logo_path : string) : Z * Z :=
  let mincols := if negb (String.eqb logo_path "") then 6%Z else 5%Z in
  let ncols := Z.max mincols (Z.sqrt n) in
  let nrows := ((n + ncols - 1) / ncols)%Z in
  (nrows, ncols).

(** ** Catalog rows *)

(** The columns of the merged frame that the pipeline reads. A missing
    angular size is a NaN. *)
Record Row : Type := mkRow {
  main_id : string;
  ra : pyfloat;
  dec : pyfloat;
  TYPE : string;
  galdim_majaxis : pyfloat
}.

(** A cell of a CSV file as pandas reads it: a number (NaN when the cell
    is empty) or, in a column that is not numeric, a string. *)
Inductive cell : Type :=
| CFloat (f : pyfloat)
| CStr (s : string).

Definition isna (c : cell) : bool :=
  match c with
  | CFloat NaN => true
  | _ => false
  end.

Record CsvRecord : Type := {
  csv_name : cell;
  csv_ra : cell;
  csv_dec : cell;
  csv_diameter : cell
}.

Record CsvTable : Type := {
  csv_columns : list string;
  csv_records : list CsvRecord
}.

(** A row of the Simbad result table, after [to_pandas]. *)
Record SimbadRow : Type := {
  s_main_id : string;
  s_ra : pyfloat;
  s_dec : pyfloat;
  s_galdim_majaxis : pyfloat
}.

(** ** The world the pipeline runs in *)

Record World : Type := {
  (** [siril.radec2pix(ra, dec)] *)
  radec2pix : pyfloat -> pyfloat -> outcome (pyfloat * pyfloat);
  (** [siril.pix2radec(x, y)]; the caller has checked that the image is
      plate solved *)
  pix2radec : R -> R -> pyfloat * pyfloat;
  (** [c = SkyCoord(ra=.. * u.deg, dec=.. * u.deg)] read back as
      [(c.ra.deg, c.dec.deg)] *)
  SkyCoord : pyfloat -> pyfloat -> outcome (pyfloat * pyfloat);
  (** [os.path.exists] *)
  path_exists : string -> bool;
  (** [pd.read_csv] *)
  read_csv : string -> outcome CsvTable;
  (** the float a string cell parses to, if any *)
  parse_float : string -> option pyfloat;
  (** [str] of a float *)
  float_str : pyfloat -> string;
  (** [simbad.query_region(center, radius, criteria)] for a radius in
      degrees and a minimum size in arc minutes, sorted by decreasing
      [galdim_majaxis] *)
  query_region : pyfloat * pyfloat -> pyfloat -> pyfloat -> outcome (list SimbadRow)
}.

(** One entry of [wcs_error_entries]: identifier, ra, dec, message. *)
Definition wcs_error : Type := (string * pyfloat * pyfloat * string)%type.

(** A row with the columns the projection step adds. *)
Record PRow : Type := mkPRow {
  row : Row;
  Pixel_Position : pyfloat * pyfloat;
  px : Z;
  py : Z
}.

(** What the run draws and writes. Of the console messages only those of
    the two early returns are kept. *)
Inductive Output : Type := Overlay | Table | Combined.

Inductive Shape : Type := Boxes | Circles.

Record Annotation : Type := {
  a_text : string;
  a_main_id : string;
  a_px : Z;
  a_py : Z;
  a_fontsize : Z;
  a_color : string;
  a_patch_size : Z;
  a_patch_diameter_pix : pyfloat;
  (** the thumbnail crop [(x1, x2, y1, y2)] *)
  a_box : Z * Z * Z * Z
}.

Inductive event : Type :=
| EvPrint (s : string)
| EvLog (s : string)
| EvAnnotate (shape : Shape) (a : Annotation)
| EvSavefig (o : Output)
| EvSubplots (nrows ncols : Z)
| EvThumbnail (i : nat) (title : string)
| EvLogo
| EvImageSave (o : Output).

Definition is_render (e : event) : bool :=
  match e with
  | EvPrint _ | EvLog _ => false
  | _ => true
  end.

Definition minsize_pixels : Z := 5%Z.

Definition min_patch_size (W H : Z) : Z :=
  py_round (IZR (Z.max W H) / 100).

Definition catalog_files : list (string * string) :=
  [ ("M"%string, "C:/Program Files/Siril/share/siril/catalogue/messier.csv"%string);
    ("NGC"%string, "C:/Program Files/Siril/share/siril/catalogue/ngc.csv"%string);
    ("IC"%string, "C:/Program Files/Siril/share/siril/catalogue/ic.csv"%string) ].

Definition EXCLUDED_SOURCES : list string :=
  [ "M"%string; "NGC"%string; "IC"%string ].

Definition derive_type (id : string) : string :=
  match leading_alnum id with
  | EmptyString => "Unknown"%string
  | t => t
  end.

Definition bounds_ok (W H m : Z) (p : PRow) : bool :=
  ((m <? px p) && (m <? py p) && (px p <? W - m) && (py p <? H - m))%Z.

Definition finite_position (rp : Row * (pyfloat * pyfloat)) : bool :=
  isfinite (fst (snd rp)) && isfinite (snd (snd rp)).

(** The columns [px] and [py]: [int(round(..))] of each coordinate. *)
Definition pixel_columns (rp : Row * (pyfloat * pyfloat)) : outcome PRow :=
  x <- int_round (fst (snd rp)) ;;
  y <- int_round (snd (snd rp)) ;;
  Ok (mkPRow (fst rp) (snd rp) x y).

Definition key_eqb (a b : Z * Z) : bool :=
  ((fst a =? fst b) && (snd a =? snd b))%Z.

Definition pixel_key (p : PRow) : Z * Z := (px p, py p).

(** [drop_duplicates(subset=['px', 'py'])] with the default
    [keep='first']: a row is dropped when its key was seen before. *)
Fixpoint drop_duplicates_from (seen : list (Z * Z)) (l : list PRow) : list PRow :=
  match l with
  | [] => []
  | p :: l' =>
      if existsb (key_eqb (pixel_key p)) seen
      then drop_duplicates_from seen l'
      else p :: drop_duplicates_from (pixel_key p :: seen) l'
  end.

Definition drop_duplicates (l : list PRow) : list PRow :=
  drop_duplicates_from [] l.

Fixpoint index_of (key : string) (ks : list string) (i : nat) : option nat :=
  match ks with
  | [] => None
  | k :: ks' => if String.eqb key k then Some i else index_of key ks' (S i)
  end.

(** [dfi.TYPE.replace(rep_dic)]: the two-digit position of the code in
    the registry, the code itself when it is no key. *)
Definition sorting (catalogs : Catalogs) (p : PRow) : string :=
  match index_of (TYPE (row p)) (keys catalogs) 0 with
  | Some i => fmt_02d i
  | None => TYPE (row p)
  end.

Definition strip_id (p : PRow) : PRow :=
  let r := row p in
  mkPRow (mkRow (remove_spaces (main_id r)) (ra r) (dec r) (TYPE r) (galdim_majaxis r))
         (Pixel_Position p) (px p) (py p).

(** Ascending order on [(sorting, main_id)]. *)
Definition sort_leb (catalogs : Catalogs) (a b : PRow) : bool :=
  match String.compare (sorting catalogs a) (sorting catalogs b) with
  | Lt => true
  | Gt => false
  | Eq => String.leb (main_id (row a)) (main_id (row b))
  end.

Fixpoint insert_sorted (leb : PRow -> PRow -> bool) (p : PRow) (l : list PRow) : list PRow :=
  match l with
  | [] => [p]
  | q :: l' => if leb p q then p :: l else q :: insert_sorted leb p l'
  end.

(** [sort_values]: rows with equal keys keep their order. *)
Definition sort_values (leb : PRow -> PRow -> bool) (l : list PRow) : list PRow :=
  fold_right (insert_sorted leb) [] l.

(** ** The pipeline *)

Section Pipeline.

Variable w : World.

(** [pd.to_numeric(.., errors='coerce')] on one cell *)
Definition to_numeric (c : cell) : pyfloat :=
  match c with
  | CFloat f => f
  | CStr s =>
      match parse_float w s with
      | Some f => f
      | None => NaN
      end
  end.

(** [.astype(str)] on one cell *)
Definition astype_str (c : cell) : string :=
  match c with
  | CStr s => s
  | CFloat f => float_str w f
  end.

Definition load_builtin_catalog (filepath catalog_type : string) : list Row :=
  if negb (path_exists w filepath) then []
  else
    match read_csv w filepath with
    | Raise _ => []
    | Ok df =>
        if negb (forallb (fun c => in_strs c (csv_columns df))
                         [ "name"%string; "ra"%string; "dec"%string ])
        then []
        else
          let kept :=
            filter (fun r => negb (isna (csv_ra r)) && negb (isna (csv_dec r)))
                   (csv_records df) in
          map (fun r =>
                 mkRow (astype_str (csv_name r))
                       (to_numeric (csv_ra r))
                       (to_numeric (csv_dec r))
                       catalog_type
                       (if in_strs "diameter" (csv_columns df)
                        then to_numeric (csv_diameter r)
                        else NaN))
              kept
    end.

(** Step 1: the selected built-in catalogs, in the order of
    [catalog_files]. *)
Definition local_frames (catalogs : Catalogs) : list (list Row) :=
  map (fun kf => load_builtin_catalog (snd kf) (fst kf))
      (filter (fun kf => selected catalogs (fst kf)) catalog_files).

Definition simbad_catalogs (catalogs : Catalogs) : list string :=
  filter (fun key => negb (in_strs key EXCLUDED_SOURCES) && selected catalogs key)
         (keys catalogs).

Definition radius_deg (W H : Z) : pyfloat :=
  let '(center_ra, center_dec) := pix2radec w (IZR W / 2) (IZR H / 2) in
  let '(TL_ra, TL_dec) := pix2radec w 0 0 in
  py_max2 (fabs (fsub center_ra TL_ra)) (fabs (fsub center_dec TL_dec)).

Definition pixsize_arcmin : pyfloat :=
  let '(TL_ra, TL_dec) := pix2radec w 0 0 in
  let '(pixsize_ra, pixsize_dec) := pix2radec w 1 1 in
  fmul (Fin 60) (py_max2 (fabs (fsub pixsize_ra TL_ra)) (fabs (fsub pixsize_dec TL_dec))).

Definition minsize_arcmin : pyfloat :=
  fmul (Fin (IZR minsize_pixels)) pixsize_arcmin.

(** Step 2: the Simbad rows, typed by the leading run of letters and
    digits of the identifier, without those of the built-in catalogs. *)
Definition simbad_frame (W H : Z) : outcome (list Row) :=
  result_table <-
    query_region w (pix2radec w (IZR W / 2) (IZR H / 2)) (radius_deg W H)
                 minsize_arcmin ;;
  let df_simbad :=
    map (fun s => mkRow (s_main_id s) (s_ra s) (s_dec s)
                        (derive_type (s_main_id s)) (s_galdim_majaxis s))
        result_table in
  Ok (filter (fun r => negb (in_strs (TYPE r) (map fst catalog_files))) df_simbad).

Definition load_frames (W H : Z) (catalogs : Catalogs) : outcome (list (list Row)) :=
  let df_list := local_frames catalogs in
  match simbad_catalogs catalogs with
  | [] => Ok df_list
  | _ :: _ => df_simbad <- simbad_frame W H ;; Ok (df_list ++ [df_simbad])
  end.

(** A frame of [load_builtin_catalog] has columns when the file was
    read and holds the required ones; on each of the three early returns
    it is [pd.DataFrame()], without columns and without rows. *)
Definition builtin_has_columns (filepath : string) : bool :=
  path_exists w filepath
  && match read_csv w filepath with
     | Raise _ => false
     | Ok df => forallb (fun c => in_strs c (csv_columns df))
                        [ "name"%string; "ra"%string; "dec"%string ]
     end.

(** [pd.concat(df_list)] has the columns of its frames: those of a
    built-in catalog that was read, and those of the Simbad table, which
    has its columns also when the query found nothing. *)
Definition merged_has_columns (catalogs : Catalogs) : bool :=
  existsb (fun kf => builtin_has_columns (snd kf))
          (filter (fun kf => selected catalogs (fst kf)) catalog_files)
  || match simbad_catalogs catalogs with
     | [] => false
     | _ :: _ => true
     end.

(** What pandas 2 raises on a merged frame without rows. Without
    columns, [df.apply(.., axis=1)] answers a copy of the frame, and
    the assignment to [df['Pixel_Position']] is a ValueError. With
    columns it answers an empty float series; the filter of the finite
    positions then indexes the frame by that series, which selects no
    column, and the next read of [df['Pixel_Position']] is a KeyError. *)
Definition no_columns_error : string :=
  "Cannot set a DataFrame without columns to the column Pixel_Position".

Definition no_rows_error : string := "'Pixel_Position'".

(** Step 4: projection. The [try] body raises on a non-finite result;
    the handler records the row and answers [(nan, nan)]. *)
Definition try_radec2pix (r : Row) : outcome (pyfloat * pyfloat) :=
  xy <- radec2pix w (ra r) (dec r) ;;
  if negb (isfinite (fst xy) && isfinite (snd xy))
  then Raise "radec2pix returned non-finite values"
  else Ok xy.

Definition safe_radec2pix (r : Row) (wcs_error_entries : list wcs_error)
  : (pyfloat * pyfloat) * list wcs_error :=
  match try_radec2pix r with
  | Ok xy => (xy, wcs_error_entries)
  | Raise e => ((NaN, NaN), wcs_error_entries ++ [(main_id r, ra r, dec r, e)])
  end.

(** [df.apply(safe_radec2pix, axis=1)]: row after row, on one error
    list. *)
Fixpoint apply_safe_radec2pix (df : list Row) (errs : list wcs_error)
  : list (pyfloat * pyfloat) * list wcs_error :=
  match df with
  | [] => ([], errs)
  | r :: df' =>
      let '(p, errs1) := safe_radec2pix r errs in
      let '(ps, errs2) := apply_safe_radec2pix df' errs1 in
      (p :: ps, errs2)
  end.

(** The rows with finite positions, with their pixel columns. A list
    of rows is a frame with the columns of [Row]: without rows, the
    column of the positions is lost and reading it raises the KeyError
    [no_rows_error]. *)
Definition projected (df : list Row) : outcome (list PRow) :=
  match df with
  | [] => Raise no_rows_error
  | _ :: _ =>
      let positions := fst (apply_safe_radec2pix df []) in
      mapM pixel_columns (filter finite_position (combine df positions))
  end.

Definition projection_errors (df : list Row) : list wcs_error :=
  snd (apply_safe_radec2pix df []).

Definition in_bounds (W H : Z) (l : list PRow) : list PRow :=
  filter (bounds_ok W H (min_patch_size W H)) l.

Definition of_selected_type (catalogs : Catalogs) (l : list PRow) : list PRow :=
  filter (fun p => in_strs (TYPE (row p)) (filter_types catalogs)) l.

(** The frame [dfi] tested by the second early return. *)
Definition working_set (W H : Z) (catalogs : Catalogs) (df : list Row)
  : outcome (list PRow) :=
  df1 <- projected df ;;
  Ok (drop_duplicates (of_selected_type catalogs (in_bounds W H df1))).

Definition ordered (catalogs : Catalogs) (dfi : list PRow) : list PRow :=
  sort_values (sort_leb catalogs) (map strip_id dfi).

(** *** The patch sizer (the body of the loop over [dfi]) *)

(** The angular size, with the fallback for missing sizes. *)
Definition angular_size_of (r : Row) : pyfloat :=
  let angular_size := galdim_majaxis r in
  if isnan angular_size then
    if String.eqb (TYPE r) "M" then
      if String.eqb (main_id r) "M8" then Fin 90
      else if String.eqb (main_id r) "M40" then Fin (86 / 100)
      else if String.eqb (main_id r) "M43" then Fin 20
      else if String.eqb (main_id r) "M78" then Fin 8
      else if String.eqb (main_id r) "M82" then Fin (112 / 10)
      else Fin 0
    else Fin 0
  else angular_size.

Definition size_factor : pyfloat := Fin 2.

(** The [try] body: four points offset by half the size along RA and
    DEC, projected; the mean of the two pixel distances. Answers
    [(patch_size, patch_diameter_pix)]. *)
Definition wcs_patch_size (m : Z) (r : Row) (angular_size : pyfloat)
  : outcome (Z * pyfloat) :=
  let half_diam_deg := fdiv_const (fdiv_const angular_size 2) 60 in
  coord_top <- SkyCoord w (ra r) (fadd (dec r) half_diam_deg) ;;
  coord_bottom <- SkyCoord w (ra r) (fsub (dec r) half_diam_deg) ;;
  coord_left <- SkyCoord w (fsub (ra r) half_diam_deg) (dec r) ;;
  coord_right <- SkyCoord w (fadd (ra r) half_diam_deg) (dec r) ;;
  top <- radec2pix w (fst coord_top) (snd coord_top) ;;
  bottom <- radec2pix w (fst coord_bottom) (snd coord_bottom) ;;
  left <- radec2pix w (fst coord_left) (snd coord_left) ;;
  right <- radec2pix w (fst coord_right) (snd coord_right) ;;
  let d_dec := fhypot (fsub (fst top) (fst bottom)) (fsub (snd top) (snd bottom)) in
  let d_ra := fhypot (fsub (fst right) (fst left)) (fsub (snd right) (snd left)) in
  let patch_diameter_pix := fdiv_const (fadd d_dec d_ra) 2 in
  patch_size <- int_round (fmul patch_diameter_pix size_factor) ;;
  Ok (Z.max m patch_size, patch_diameter_pix).

(** Lines 351-384: the minimum size for a zero angular size and when
    the [try] body raises (logged in red). *)
Definition estimate_patch (m : Z) (r : Row) : (Z * pyfloat) * list event :=
  let angular_size := angular_size_of r in
  if fis_zero angular_size then ((m, Fin (IZR m)), [])
  else
    match wcs_patch_size m r angular_size with
    | Ok sz => (sz, [])
    | Raise e =>
        ((m, Fin (IZR m)),
         [EvLog (main_id r ++ ": WCS radius estimation failed: " ++ e)%string])
    end.

(** Lines 387-409, the type dependent style: font size, colour and,
    in the LEDA branch, the patch size again. *)
Definition styled (main_object : string) (m : Z) (r : Row) (color0 : string)
           (sz : Z * pyfloat) : Z * string * (Z * pyfloat) :=
  if String.eqb (main_id r) main_object then (20%Z, "white"%string, sz)
  else if String.eqb (TYPE r) "M" then (18%Z, color0, sz)
  else if String.eqb (TYPE r) "NGC" then (18%Z, color0, sz)
  else if String.eqb (TYPE r) "SAI" then (16%Z, color0, sz)
  else if String.eqb (TYPE r) "UGC" then (16%Z, color0, sz)
  else if String.eqb (TYPE r) "MCG" then (16%Z, color0, sz)
  else if String.eqb (TYPE r) "IC" then (16%Z, color0, sz)
  else if String.eqb (TYPE r) "LEDA" then
    if negb (isnan (galdim_majaxis r)) && fgtb (galdim_majaxis r) (Fin (18 / 10))
    then (12%Z, color0, (m, Fin (IZR m)))
    else (12%Z, color0, sz)
  else (12%Z, color0, sz).

Definition color_of (catalogs : Catalogs) (t : string) : string :=
  match lookup t catalogs with
  | Some e => color e
  | None => "#ff0000"%string
  end.

(** The patch size and diameter of a row before the clipping on the
    image borders, with what the estimate logged. *)
Definition patch_of_row (catalogs : Catalogs) (main_object : string) (m : Z) (r : Row)
  : (Z * string * (Z * pyfloat)) * list event :=
  let '(sz, logs) := estimate_patch m r in
  (styled main_object m r (color_of catalogs (TYPE r)) sz, logs).

Definition patch_size_of (catalogs : Catalogs) (main_object : string) (m : Z) (r : Row) : Z :=
  fst (snd (fst (patch_of_row catalogs main_object m r))).

Definition patch_diameter_of (catalogs : Catalogs) (main_object : string) (m : Z) (r : Row)
  : pyfloat :=
  snd (snd (fst (patch_of_row catalogs main_object m r))).

Definition clip (W H : Z) (p : PRow) (patch_size : Z) : Z :=
  let clipped := Z.min patch_size ((W - px p) * 2) in
  let clipped := Z.min clipped ((H - py p) * 2) in
  let clipped := Z.min clipped (px p * 2) in
  Z.min clipped (py p * 2).

Definition annotate_row (W H : Z) (catalogs : Catalogs) (main_object : string)
           (shape : Shape) (i : nat) (p : PRow) : list event :=
  let m := min_patch_size W H in
  let '(fontsize, color1, (patch_size, patch_diameter_pix), logs) :=
    patch_of_row catalogs main_object m (row p) in
  let annotation_text := str_of_nat (i + 1) in
  let annotation_text :=
    if (200 <? patch_size)%Z
    then (annotation_text ++ ": " ++ main_id (row p))%string
    else annotation_text in
  let clipped := clip W H p patch_size in
  let x1 := (px p - clipped / 2)%Z in
  let x2 := (px p + clipped / 2)%Z in
  let y1 := (H - py p - clipped / 2)%Z in
  let y2 := (H - py p + clipped / 2)%Z in
  logs ++
  [EvAnnotate shape
     {| a_text := annotation_text; a_main_id := main_id (row p);
        a_px := px p; a_py := py p;
        a_fontsize := fontsize; a_color := color1;
        a_patch_size := patch_size; a_patch_diameter_pix := patch_diameter_pix;
        a_box := (x1, x2, y1, y2) |}].

Fixpoint annotate_rows (W H : Z) (catalogs : Catalogs) (main_object : string)
         (shape : Shape) (i : nat) (dfi : list PRow) : list event :=
  match dfi with
  | [] => []
  | p :: dfi' =>
      annotate_row W H catalogs main_object shape i p
      ++ annotate_rows W H catalogs main_object shape (S i) dfi'
  end.

Fixpoint thumbnails (i : nat) (dft : list PRow) : list event :=
  match dft with
  | [] => []
  | p :: dft' => EvThumbnail i (main_id (row p)) :: thumbnails (S i) dft'
  end.

(** The thumbnail table: the grid, a cell per row, the logo in the last
    cell when one is asked for and a cell is free. *)
Definition render_table (logo_path : string) (dfi : list PRow) : list event :=
  let n := Z.of_nat (List.length dfi) in
  let '(nrows, ncols) := grid_size n logo_path in
  EvSubplots nrows ncols :: thumbnails 0 dfi
  ++ (if negb (String.eqb logo_path "") && (n <? nrows * ncols)%Z then [EvLogo] else [])
  ++ [EvSavefig Table].

Definition shape_of (overlay_type : string) : Shape :=
  if String.eqb overlay_type "boxes" then Boxes else Circles.

(** [annotate_fit]: the number of annotated objects, with what was
    drawn and written. The first early return tests the list of the
    frames, not their rows: when every frame is [pd.DataFrame()] the
    merged frame has no columns and the projection step raises
    [no_columns_error]; when the frames have columns and no rows,
    [working_set] raises [no_rows_error]. The calls that draw and write
    (matplotlib, skimage, PIL) are recorded as events and taken to
    succeed, as are the host calls on the image before the loading,
    which the driver makes only on a plate solved image. *)
Definition annotate_fit (W H : Z) (catalogs : Catalogs)
           (title logo_path overlay_type : string) : outcome (Z * list event) :=
  let main_object := title in
  df_list <- load_frames W H catalogs ;;
  match df_list with
  | [] => Ok (0%Z, [EvPrint "No catalog data loaded."])
  | _ :: _ =>
      let df := List.concat df_list in
      dfi <- (if merged_has_columns catalogs
              then working_set W H catalogs df
              else Raise no_columns_error) ;;
      if (List.length dfi =? 0)%nat
      then Ok (0%Z, [EvPrint "No objects found in image boundary."])
      else
        let dfi := ordered catalogs dfi in
        Ok (Z.of_nat (List.length dfi),
            annotate_rows W H catalogs main_object (shape_of overlay_type) 0 dfi
            ++ [EvSavefig Overlay]
            ++ render_table logo_path dfi
            ++ [EvImageSave Combined])
  end.

End Pipeline.

(* ================================================================== *)
(** * Part II: reading the pipeline                                    *)
(* ================================================================== *)

(** What [safe_radec2pix] answers for a row, and what it records. *)
Definition position_of (w : World) (r : Row) : pyfloat * pyfloat :=
  match try_radec2pix w r with
  | Ok xy => xy
  | Raise _ => (NaN, NaN)
  end.

Definition error_of (w : World) (r : Row) : list wcs_error :=
  match try_radec2pix w r with
  | Ok _ => []
  | Raise e => [(main_id r, ra r, dec r, e)]
  end.

Definition rounded (f : pyfloat) : Z :=
  match f with
  | Fin x => py_round x
  | _ => 0%Z
  end.

Definition with_pixel_columns (rp : Row * (pyfloat * pyfloat)) : PRow :=
  mkPRow (fst rp) (snd rp) (rounded (fst (snd rp))) (rounded (snd (snd rp))).

(** The projector raises on the position of the row, or one of the
    coordinates it returns is not finite. *)
Definition projection_fails (w : World) (r : Row) : Prop :=
  (exists msg, radec2pix w (ra r) (dec r) = Raise msg)
  \/ (exists x y, radec2pix w (ra r) (dec r) = Ok (x, y)
                  /\ isfinite x && isfinite y = false).

Definition has_key (k : Z * Z) (p : PRow) : bool := key_eqb (pixel_key p) k.

(** A projector that is affine in the sky coordinates: pixel offsets
    are linear in angular offsets. *)
Definition linear_projector (w : World) (x0 y0 a b c d : R) : Prop :=
  forall alpha delta : R,
    radec2pix w (Fin alpha) (Fin delta)
    = Ok (Fin (x0 + a * alpha + b * delta), Fin (y0 + c * alpha + d * delta)).

(** The four points at [h] degrees from [(alpha, delta)] are built as
    given: no wrap of the right ascension, no declination out of range. *)
Definition offsets_kept (w : World) (alpha delta h : R) : Prop :=
  SkyCoord w (Fin alpha) (Fin (delta + h)) = Ok (Fin alpha, Fin (delta + h))
  /\ SkyCoord w (Fin alpha) (Fin (delta + - h)) = Ok (Fin alpha, Fin (delta + - h))
  /\ SkyCoord w (Fin (alpha + - h)) (Fin delta) = Ok (Fin (alpha + - h), Fin delta)
  /\ SkyCoord w (Fin (alpha + h)) (Fin delta) = Ok (Fin (alpha + h), Fin delta).

(** The LEDA branch of the style chain resets the patch of the row. *)
Definition leda_override (main_object : string) (r : Row) : bool :=
  negb (String.eqb (main_id r) main_object)
  && String.eqb (TYPE r) "LEDA"
  && negb (isnan (galdim_majaxis r))
  && fgtb (galdim_majaxis r) (Fin (18 / 10)).

(** The angular distance of two sky positions in degrees (the great
    circle through them), as the words of the specification have it. *)
Definition angular_distance_deg (ra1 dec1 ra2 dec2 : R) : R :=
  let rad (x : R) := (x * PI / 180)%R in
  (acos (sin (rad dec1) * sin (rad dec2)
         + cos (rad dec1) * cos (rad dec2) * cos (rad ra1 - rad ra2))
   * 180 / PI)%R.

(** ** Test worlds *)

(** A flat test sky: [scale] pixels per degree on both axes, pixel
    (0, 0) at the origin of the sky, the catalog files of [files], an
    empty Simbad answer. The projector raises on a NaN and answers
    infinities to an infinity. *)
Definition flat_world (scale : R) (files : string -> option CsvTable) : World :=
  {| radec2pix := fun a b =>
       match a, b with
       | Fin alpha, Fin delta => Ok (Fin (scale * alpha), Fin (scale * delta))
       | NaN, _ | _, NaN => Raise "invalid sky position"
       | _, _ => Ok (PInf, PInf)
       end;
     pix2radec := fun x y => (Fin (x / scale), Fin (y / scale));
     SkyCoord := fun a b => Ok (a, b);
     path_exists := fun p => match files p with Some _ => true | None => false end;
     read_csv := fun p =>
       match files p with
       | Some t => Ok t
       | None => Raise "No such file or directory"
       end;
     parse_float := fun _ => None;
     float_str := fun _ => "nan"%string;
     query_region := fun _ _ _ => Ok [] |}.

Definition no_files (p : string) : option CsvTable := None.

(** A Messier file of four objects: one in the middle of a 1000 x 1000
    frame at 100 pixels per degree, one that rounds to the same pixel,
    one whose right ascension is infinite, one on the left margin. *)
Definition test_messier : CsvTable :=
  {| csv_columns := [ "name"%string; "ra"%string; "dec"%string; "diameter"%string ];
     csv_records :=
       [ {| csv_name := CStr "M 1"; csv_ra := CFloat (Fin 5); csv_dec := CFloat (Fin 5);
            csv_diameter := CFloat NaN |};
         {| csv_name := CStr "M 2"; csv_ra := CFloat (Fin (5001 / 1000));
            csv_dec := CFloat (Fin (5002 / 1000)); csv_diameter := CFloat (Fin 3) |};
         {| csv_name := CStr "M 3"; csv_ra := CFloat PInf; csv_dec := CFloat (Fin 5);
            csv_diameter := CFloat (Fin 3) |};
         {| csv_name := CStr "M 4"; csv_ra := CFloat (Fin (5 / 100));
            csv_dec := CFloat (Fin 5); csv_diameter := CFloat (Fin 3) |} ] |}.

Definition test_files (p : string) : option CsvTable :=
  if String.eqb p "C:/Program Files/Siril/share/siril/catalogue/messier.csv"
  then Some test_messier else None.

Definition test_rows : list Row :=
  [ mkRow "M 1" (Fin 5) (Fin 5) "M" NaN;
    mkRow "M 2" (Fin (5001 / 1000)) (Fin (5002 / 1000)) "M" (Fin 3);
    mkRow "M 3" PInf (Fin 5) "M" (Fin 3);
    mkRow "M 4" (Fin (5 / 100)) (Fin 5) "M" (Fin 3) ].

(** Two LEDA galaxies and two NGC galaxies at one position, of 1 and 5
    arc minutes. *)
Definition leda_small : Row := mkRow "LEDA1" (Fin 10) (Fin 20) "LEDA" (Fin 1).
Definition leda_large : Row := mkRow "LEDA2" (Fin 10) (Fin 20) "LEDA" (Fin 5).
Definition ngc_small : Row := mkRow "NGC1" (Fin 10) (Fin 20) "NGC" (Fin 1).
Definition ngc_large : Row := mkRow "NGC2" (Fin 10) (Fin 20) "NGC" (Fin 5).

(** The rows of [test_rows] that the projection keeps, with their pixel
    columns. *)
Definition test_projected : list PRow :=
  [ mkPRow (mkRow "M 1" (Fin 5) (Fin 5) "M" NaN)
           (Fin (100 * 5), Fin (100 * 5)) 500 500;
    mkPRow (mkRow "M 2" (Fin (5001 / 1000)) (Fin (5002 / 1000)) "M" (Fin 3))
           (Fin (100 * (5001 / 1000)), Fin (100 * (5002 / 1000))) 500 500;
    mkPRow (mkRow "M 4" (Fin (5 / 100)) (Fin 5) "M" (Fin 3))
           (Fin (100 * (5 / 100)), Fin (100 * 5)) 5 500 ].

Definition test_working_set : list PRow :=
  [ mkPRow (mkRow "M 1" (Fin 5) (Fin 5) "M" NaN)
           (Fin (100 * 5), Fin (100 * 5)) 500 500 ].

(** A configuration directory with a four line options file that names
    a logo which is no file. *)
Definition nl : string := String "010" EmptyString.

Definition test_config_lines : list string :=
  [ ("logo.png" ++ nl)%string; ("0.50" ++ nl)%string;
    ("boxes" ++ nl)%string; ("M,NGC" ++ nl)%string ].

Definition test_fs : FileSystem :=
  {| isfile := fun p => String.eqb p "Galaxy_Annotations.conf";
     readlines := fun p =>
       if String.eqb p "Galaxy_Annotations.conf" then test_config_lines else [] |}.

Definition test_float (s : string) : option pyfloat :=
  if String.eqb s "0.50" then Some (Fin (1 / 2)) else None.

(** What [load_config_file] makes of the first line. *)
Definition logo_of (fs : FileSystem) (line : string) : option string :=
  if isfile fs (strip line) then Some (strip line) else None.

(* ================================================================== *)
(** * Part II, continued: the rest of the script                       *)
(* ================================================================== *)

(** ** Output file names *)

Definition is_dot (c : ascii) : bool := Ascii.eqb c ".".

(** [p.rfind(..)] for a class of characters: the last index of one of
    them, -1 when there is none. *)
Fixpoint rfind_from (f : ascii -> bool) (s : string) (i : Z) : Z :=
  match s with
  | EmptyString => (-1)%Z
  | String c s' =>
      let j := rfind_from f s' (i + 1) in
      if (0 <=? j)%Z then j else if f c then i else (-1)%Z
  end.

Definition rfind (f : ascii -> bool) (s : string) : Z := rfind_from f s 0.

(** [(p[:n], p[n:])] *)
Fixpoint split_at (n : nat) (s : string) : string * string :=
  match n, s with
  | O, _ => (EmptyString, s)
  | S _, EmptyString => (EmptyString, EmptyString)
  | S n', String c s' =>
      let '(a, b) := split_at n' s' in (String c a, b)
  end.

(** The [while] loop of [genericpath._splitext]: whether one of
    [p[filenameIndex:dotIndex]] is not a dot. *)
Fixpoint has_non_dot (p : string) (filenameIndex dotIndex : nat) : bool :=
  match p with
  | EmptyString => false
  | String c p' =>
      match dotIndex with
      | O => false
      | S dotIndex' =>
          match filenameIndex with
          | O => if is_dot c then has_non_dot p' O dotIndex' else true
          | S filenameIndex' => has_non_dot p' filenameIndex' dotIndex'
          end
      end
  end.

(** [os.path.splitext]; [is_sep] tells the path separators of the
    platform ([/], and the backslash on Windows). *)
Definition splitext (is_sep : ascii -> bool) (p : string) : string * string :=
  let sepIndex := rfind is_sep p in
  let dotIndex := rfind is_dot p in
  if (sepIndex <? dotIndex)%Z
     && has_non_dot p (Z.to_nat (sepIndex + 1)) (Z.to_nat dotIndex)
  then split_at (Z.to_nat dotIndex) p
  else (p, EmptyString).

Definition lower_ascii (c : ascii) : ascii :=
  let n := nat_of_ascii c in
  if ((65 <=? n) && (n <=? 90))%nat then ascii_of_nat (n + 32) else c.

(** [s.lower()] on ASCII *)
Fixpoint lower (s : string) : string :=
  match s with
  | EmptyString => EmptyString
  | String c s' => String (lower_ascii c) (lower s')
  end.

(** The formats of matplotlib's [savefig] the script accepts. *)
Definition savefig_formats : list string :=
  [ ".eps"%string; ".jpeg"%string; ".jpg"%string; ".pdf"%string; ".pgf"%string;
    ".png"%string; ".ps"%string; ".raw"%string; ".rgba"%string; ".svg"%string;
    ".svgz"%string; ".tif"%string; ".tiff"%string; ".webp"%string ].

(** The stem and the extension [get_output_filename] puts the suffix
    between. *)
Definition output_parts (is_sep : ascii -> bool) (output_basename : string)
  : string * string :=
  let '(filename, extension) := splitext is_sep output_basename in
  if String.eqb extension "" then (filename, ".png"%string)
  else if negb (in_strs (lower extension) savefig_formats)
       then (output_basename, ".png"%string)
       else (filename, extension).

Definition get_output_filename (is_sep : ascii -> bool) (output_basename suffix : string)
  : string :=
  let '(filename, extension) := output_parts is_sep output_basename in
  (filename ++ suffix ++ extension)%string.

Definition get_overlay_filename (is_sep : ascii -> bool) (output_basename : string) : string :=
  get_output_filename is_sep output_basename "_overlay".

Definition get_table_filename (is_sep : ascii -> bool) (output_basename : string) : string :=
  get_output_filename is_sep output_basename "_table".

Definition get_combined_filename (is_sep : ascii -> bool) (output_basename : string) : string :=
  get_output_filename is_sep output_basename "".

Definition posix_sep (c : ascii) : bool := Ascii.eqb c "/".

Definition nt_sep (c : ascii) : bool := Ascii.eqb c "/" || Ascii.eqb c "\".

Fixpoint has_char (f : ascii -> bool) (s : string) : bool :=
  match s with
  | EmptyString => false
  | String c s' => f c || has_char f s'
  end.

(** ** Writing the options file *)

Definition is_newline (c : ascii) : bool :=
  Ascii.eqb c "010" || Ascii.eqb c "013".

(** [file.readlines()] of a text: universal newlines, a carriage
    return and a carriage return with a line feed read as one line end. *)
Fixpoint py_readlines (text : string) : list string :=
  match text with
  | EmptyString => []
  | String c text' =>
      if Ascii.eqb c "010" then nl :: py_readlines text'
      else if Ascii.eqb c "013" then
        match text' with
        | String c' _ =>
            if Ascii.eqb c' "010" then py_readlines text' else nl :: py_readlines text'
        | EmptyString => [nl]
        end
      else
        match py_readlines text' with
        | [] => [String c EmptyString]
        | line :: lines => String c line :: lines
        end
  end.

(** What [save_config_file] writes: the logo path, the alpha as
    [f"{overlay_alpha:.2f}"] gives it, the overlay type, and the catalog
    selection when there is one, a line each. *)
Definition config_text (logo_path alpha_text overlay_type : string)
           (selected_catalogs : option string) : string :=
  (logo_path ++ nl ++ (alpha_text ++ nl) ++ (overlay_type ++ nl)
   ++ match selected_catalogs with
      | Some s => s ++ nl
      | None => EmptyString
      end)%string.

Definition write_file (fs : FileSystem) (path text : string) : FileSystem :=
  {| isfile := fun p => String.eqb p path || isfile fs p;
     readlines := fun p => if String.eqb p path then py_readlines text else readlines fs p |}.

(** [save_config_file]; [writable] tells whether [open(.., 'w')]
    succeeds. A failure is printed and nothing else happens. *)
Definition save_config_file (fs : FileSystem) (format_2f : pyfloat -> string)
           (writable : bool) (config_file_path logo_path : string)
           (overlay_alpha : pyfloat) (overlay_type : string)
           (selected_catalogs : option string) : FileSystem * list string :=
  if writable
  then (write_file fs config_file_path
          (config_text logo_path (format_2f overlay_alpha) overlay_type selected_catalogs),
        [])
  else (fs, [ "Error saving config file: Permission denied"%string ]).

(** A directory that holds a logo and no options file yet. *)
Definition logo_fs : FileSystem :=
  {| isfile := fun p => String.eqb p "logo.png";
     readlines := fun _ => [] |}.

(** ** Reading the run *)

Definition is_annotate (e : event) : bool :=
  match e with EvAnnotate _ _ => true | _ => false end.

Definition is_thumbnail (e : event) : bool :=
  match e with EvThumbnail _ _ => true | _ => false end.

Definition is_logo (e : event) : bool :=
  match e with EvLogo => true | _ => false end.

(** The projection of the row fails: what the finite filter tests. *)
Definition unprojected (w : World) (r : Row) : bool :=
  negb (finite_position (r, position_of w r)).

(** The flat test sky with a Simbad service that times out. *)
Definition offline_world (scale : R) (files : string -> option CsvTable) : World :=
  let w := flat_world scale files in
  {| radec2pix := radec2pix w;
     pix2radec := pix2radec w;
     SkyCoord := SkyCoord w;
     path_exists := path_exists w;
     read_csv := read_csv w;
     parse_float := parse_float w;
     float_str := float_str w;
     query_region := fun _ _ _ => Raise "Read timed out." |}.

(** A Simbad answer of three objects: one of the Messier catalog, one
    of the UGC, one whose identifier starts with a bracket. *)
Definition test_simbad_rows : list SimbadRow :=
  [ {| s_main_id := "M  31"; s_ra := Fin 5; s_dec := Fin 5; s_galdim_majaxis := Fin 178 |};
    {| s_main_id := "UGC 394"; s_ra := Fin 6; s_dec := Fin 5; s_galdim_majaxis := Fin 2 |};
    {| s_main_id := "[VV2006] J1"; s_ra := Fin 6; s_dec := Fin 6; s_galdim_majaxis := NaN |} ].

Definition simbad_world (scale : R) (files : string -> option CsvTable) : World :=
  let w := flat_world scale files in
  {| radec2pix := radec2pix w;
     pix2radec := pix2radec w;
     SkyCoord := SkyCoord w;
     path_exists := path_exists w;
     read_csv := read_csv w;
     parse_float := parse_float w;
     float_str := float_str w;
     query_region := fun _ _ _ => Ok test_simbad_rows |}.

(** The sort keys of the positions below [n] compare as the positions
    do. *)
Definition sort_keys_checked (n : nat) : bool :=
  forallb (fun i =>
             forallb (fun j =>
                        match String.compare (fmt_02d i) (fmt_02d j) with
                        | Lt => (i <? j)%nat
                        | Eq => (i =? j)%nat
                        | Gt => (j <? i)%nat
                        end)
                     (seq 0 n))
          (seq 0 n).

(** ** The driver: [apply_changes] *)

(** The exception classes the driver tells apart: it catches
    [SirilError] and nothing else. *)
Inductive pyexn : Type :=
| SirilError (msg : string)
| AttributeError (msg : string)
| OtherError (msg : string).

Inductive driver_event : Type :=
| DrvRun (e : event)
| DrvLog (s : string)
| DrvPrint (s : string)
| DrvMessagebox (s : string)
| DrvSaveConfig (logo_path : string) (overlay_alpha : pyfloat) (overlay_type : string)
| DrvLoad (filename : string).

(** Every entry has its [checkbox_var]: [create_widgets] has run, and
    the buttons All, None and Defaults can call [checkbox_var.set]. *)
Definition has_check_boxes (c : Catalogs) : bool :=
  forallb (fun ke => match checkbox_var (snd ke) with
                     | Some _ => true
                     | None => false
                     end) c.

(** [self.cli_args] *)
Record CliArgs : Type := {
  cli_output : string;
  cli_title : string;
  cli_logo_path : string;
  cli_overlay_alpha : pyfloat;
  cli_overlay_type : string
}.

(** The Tk variables [create_widgets] sets on the interface. *)
Record Widgets : Type := {
  wg_output : string;
  wg_title : string;
  wg_logo_path : string;
  wg_overlay_alpha : pyfloat;
  wg_overlay_type : string;
  wg_load_in_siril : string
}.

(** An [AnnotationsScriptInterface]; [widgets] is [None] when it was
    built without a Tk root, and then the attributes [output], [title],
    .., [load_in_siril] do not exist. *)
Record Interface : Type := {
  catalogs_of : Catalogs;
  cli_args : CliArgs;
  widgets : option Widgets
}.

(** The host calls of [apply_changes]; a [Raise] is a [SirilError]. *)
Record Host : Type := {
  (** [get_image_filename()] and [image_lock()] *)
  host_lock : outcome unit;
  (** [get_image()] and [ensure_data_type]: the width and height *)
  host_image : outcome (Z * Z);
  (** [pix2radec(0, 0)] does not raise ValueError *)
  plate_solved : bool;
  (** [cmd("load", ..)] *)
  cmd_load : string -> outcome unit
}.

Definition missing_attribute (name : string) : pyexn :=
  AttributeError ("'AnnotationsScriptInterface' object has no attribute '" ++ name ++ "'").

(** The handler of [except SirilError as e]. *)
Definition report (from_cli : bool) (msg : string) : list driver_event :=
  if from_cli then [DrvPrint ("Error: " ++ msg)] else [DrvMessagebox msg].

(** The file [load_in_siril] asks for. *)
Definition load_target (is_sep : ascii -> bool) (load_in_siril output : string)
  : option string :=
  if String.eqb load_in_siril "C" then Some (get_combined_filename is_sep output)
  else if String.eqb load_in_siril "O" then Some (get_overlay_filename is_sep output)
  else if String.eqb load_in_siril "T" then Some (get_table_filename is_sep output)
  else None.

(** [apply_changes]: what it did, and the exception that escapes it,
    if any. *)
Definition apply_changes (is_sep : ascii -> bool) (w : World) (host : Host)
           (self : Interface) (from_cli : bool) : list driver_event * option pyexn :=
  match host_lock host with
  | Raise msg => (report from_cli msg, None)
  | Ok _ =>
      let params :=
        if from_cli
        then Some (cli_output (cli_args self), cli_title (cli_args self),
                   cli_logo_path (cli_args self), cli_overlay_type (cli_args self), [])
        else
          match widgets self with
          | None => None
          | Some g =>
              Some (wg_output g, wg_title g, wg_logo_path g, wg_overlay_type g,
                    [DrvSaveConfig (wg_logo_path g) (wg_overlay_alpha g) (wg_overlay_type g)])
          end in
      match params with
      | None => ([], Some (missing_attribute "output"))
      | Some (output, title, logo_path, overlay_type, saved) =>
          match host_image host with
          | Raise msg => (saved ++ report from_cli msg, None)
          | Ok (W, H) =>
              if negb (plate_solved host)
              then (saved ++ [DrvLog "The image is not plate solved"]
                    ++ (if from_cli then []
                        else [DrvMessagebox "The image is not plate solved"]),
                    None)
              else
                match annotate_fit w W H (catalogs_of self) title logo_path overlay_type with
                | Raise msg => (saved, Some (OtherError msg))
                | Ok (found, log) =>
                    let done := saved ++ map DrvRun log in
                    if (0 <? found)%Z then
                      let done :=
                        done ++ [DrvLog "Annotations image created successfully."] in
                      match widgets self with
                      | None => (done, Some (missing_attribute "load_in_siril"))
                      | Some g =>
                          match load_target is_sep (wg_load_in_siril g) output with
                          | None => (done, None)
                          | Some f =>
                              match cmd_load host f with
                              | Ok _ => (done ++ [DrvLoad f], None)
                              | Raise msg => (done ++ report from_cli msg, None)
                              end
                          end
                      end
                    else (done, None)
                end
          end
      end
  end.

(** The interface and the host of a command line run on the test
    image. *)
Definition cli_interface : Interface :=
  {| catalogs_of := interface_catalogs false;
     cli_args := {| cli_output := "annotated"; cli_title := "Andromeda";
                    cli_logo_path := ""; cli_overlay_alpha := Fin (6 / 10);
                    cli_overlay_type := "boxes" |};
     widgets := None |}.

(** The interface of a GUI run after the button All. *)
Definition gui_interface : Interface :=
  {| catalogs_of := select_all (interface_catalogs true);
     cli_args := cli_args cli_interface;
     widgets := Some {| wg_output := "annotated"; wg_title := "Andromeda";
                        wg_logo_path := ""; wg_overlay_alpha := Fin (6 / 10);
                        wg_overlay_type := "circles"; wg_load_in_siril := "C" |} |}.

Definition test_host : Host :=
  {| host_lock := Ok tt;
     host_image := Ok (1000%Z, 1000%Z);
     plate_solved := true;
     cmd_load := fun _ => Ok tt |}.

(* ================================================================== *)
(** * Part III: properties                                             *)
(* ================================================================== *)

(** ** Rounding *)

Lemma py_round_IZR (z : Z) : py_round (IZR z) = z.
Proof.
  unfold py_round. rewrite ZfloorZ.
  destruct (Rlt_dec (IZR z - IZR z) (1 / 2)) as [_ | H]; [reflexivity | lra].
Qed.

Lemma py_round_le (r1 r2 : R) : (r1 <= r2)%R -> (py_round r1 <= py_round r2)%Z.
Proof.
  intros Hle. unfold py_round.
  pose proof (Zfloor_le _ _ Hle) as Hf.
  pose proof (Zfloor_bound r1) as B1.
  pose proof (Zfloor_bound r2) as B2.
  destruct (Z.eq_dec (Zfloor r1) (Zfloor r2)) as [E | NE].
  - rewrite <- E in *.
    repeat destruct Rlt_dec; destruct (Z.even (Zfloor r1)); try lia; lra.
  - assert (Zfloor r1 + 1 <= Zfloor r2)%Z as Hs by lia.
    repeat destruct Rlt_dec;
      destruct (Z.even (Zfloor r1)); destruct (Z.even (Zfloor r2)); lia.
Qed.

Lemma py_round_near (r : R) :
  (IZR (py_round r) - 1 / 2 <= r <= IZR (py_round r) + 1 / 2)%R.
Proof.
  unfold py_round. pose proof (Zfloor_bound r) as B.
  repeat destruct Rlt_dec; try destruct (Z.even (Zfloor r));
    rewrite ?plus_IZR; lra.
Qed.

Lemma quotient_split (n d : Z) :
  (0 < d)%Z -> (IZR n / IZR d = IZR (n / d) + IZR (n mod d) / IZR d)%R.
Proof.
  intros Hd.
  assert (IZR d <> 0)%R as Hd0 by (apply not_0_IZR; lia).
  rewrite (Z.div_mod n d) at 1 by lia.
  rewrite plus_IZR, mult_IZR. field. exact Hd0.
Qed.

Lemma py_round_div (n d : Z) :
  (0 < d)%Z -> py_round (IZR n / IZR d) = round_div n d.
Proof.
  intros Hd.
  assert (0 < IZR d)%R as Hd0 by (apply IZR_lt; lia).
  pose proof (Z.mod_pos_bound n d Hd) as [Hr0 Hr1].
  apply IZR_le in Hr0. apply IZR_lt in Hr1.
  assert (0 <= IZR (n mod d) / IZR d < 1)%R as Hfrac.
  { split.
    - apply Rmult_le_pos; [exact Hr0 | left; apply Rinv_0_lt_compat; exact Hd0].
    - apply (Rmult_lt_reg_r (IZR d)); [exact Hd0 |].
      unfold Rdiv. rewrite Rmult_assoc, Rinv_l by lra. lra. }
  assert (Zfloor (IZR n / IZR d) = (n / d)%Z) as Hfl.
  { apply Zfloor_eq. rewrite (quotient_split n d) by exact Hd. lra. }
  unfold py_round, round_div. rewrite Hfl.
  replace (IZR n / IZR d - IZR (n / d))%R with (IZR (n mod d) / IZR d)%R
    by (rewrite (quotient_split n d) by exact Hd; ring).
  assert (forall a : R, (a / IZR d < 1 / 2 <-> 2 * a < IZR d)%R) as Hlt.
  { intros a. assert (a = a / IZR d * IZR d)%R as Ea by (field; lra).
    split; intros Ha; nra. }
  assert (forall a : R, (1 / 2 < a / IZR d <-> IZR d < 2 * a)%R) as Hgt.
  { intros a. assert (a = a / IZR d * IZR d)%R as Ea by (field; lra).
    split; intros Ha; nra. }
  destruct (Rlt_dec (IZR (n mod d) / IZR d) (1 / 2)) as [H1 | H1].
  - apply Hlt in H1. rewrite <- mult_IZR in H1. apply lt_IZR in H1.
    apply Z.ltb_lt in H1. rewrite H1. reflexivity.
  - assert ((2 * (n mod d) <? d)%Z = false) as E1.
    { apply Z.ltb_ge. apply Z.nlt_ge. intros C. apply H1, Hlt.
      rewrite <- mult_IZR. apply IZR_lt. exact C. }
    rewrite E1.
    destruct (Rlt_dec (1 / 2) (IZR (n mod d) / IZR d)) as [H2 | H2].
    + apply Hgt in H2. rewrite <- mult_IZR in H2. apply lt_IZR in H2.
      apply Z.ltb_lt in H2. rewrite H2. reflexivity.
    + assert ((d <? 2 * (n mod d))%Z = false) as E2.
      { apply Z.ltb_ge. apply Z.nlt_ge. intros C. apply H2, Hgt.
        rewrite <- mult_IZR. apply IZR_lt. exact C. }
      rewrite E2. reflexivity.
Qed.

(** ** The thumbnail grid *)

Lemma floor_sqrt (n : Z) : (0 <= n)%Z -> Zfloor (sqrt (IZR n)) = Z.sqrt n.
Proof.
  intros Hn.
  pose proof (Z.sqrt_spec n Hn) as [Hlo Hhi]. cbv zeta in Hlo, Hhi.
  pose proof (Z.sqrt_nonneg n) as Hs.
  apply Zfloor_eq. split.
  - rewrite <- (sqrt_square (IZR (Z.sqrt n))) by (apply IZR_le; lia).
    apply sqrt_le_1.
    + apply Rmult_le_pos; apply IZR_le; lia.
    + apply IZR_le; lia.
    + rewrite <- mult_IZR. apply IZR_le. exact Hlo.
  - replace (IZR (Z.sqrt n) + 1)%R with (IZR (Z.succ (Z.sqrt n)))
      by (rewrite succ_IZR; ring).
    rewrite <- (sqrt_square (IZR (Z.succ (Z.sqrt n)))) by (apply IZR_le; lia).
    apply sqrt_lt_1.
    + apply IZR_le; lia.
    + apply Rmult_le_pos; apply IZR_le; lia.
    + rewrite <- mult_IZR. apply IZR_lt. exact Hhi.
Qed.

Lemma ceil_quotient (n c : Z) :
  (0 < c)%Z -> Zceil (IZR n / IZR c) = ((n + c - 1) / c)%Z.
Proof.
  intros Hc.
  assert (0 < IZR c)%R as Hc0 by (apply IZR_lt; lia).
  pose proof (Z.div_mod (n + c - 1) c ltac:(lia)) as Hdm.
  pose proof (Z.mod_pos_bound (n + c - 1) c Hc) as Hr.
  set (q := ((n + c - 1) / c)%Z) in *.
  set (r := ((n + c - 1) mod c)%Z) in *.
  assert (n <= c * q)%Z as Hup by lia.
  assert (c * (q - 1) < n)%Z as Hlow by lia.
  apply IZR_le in Hup. apply IZR_lt in Hlow.
  rewrite mult_IZR in Hup, Hlow. rewrite minus_IZR in Hlow.
  assert (IZR n = IZR n / IZR c * IZR c)%R as En by (field; lra).
  apply Zceil_eq. split; nra.
Qed.

Lemma grid_size_on_integers (n : Z) (logo_path : string) :
  (0 <= n)%Z -> grid_size n logo_path = grid_size_int n logo_path.
Proof.
  intros Hn. unfold grid_size, grid_size_int.
  rewrite floor_sqrt by exact Hn.
  rewrite ceil_quotient; [reflexivity |].
  destruct (negb (logo_path =? "")%string); lia.
Qed.

(** C6: for a row count [n >= 1] the grid has
    [ncols = max(mincols, floor(sqrt(n)))] columns, with [mincols] 6 when
    a logo path is given and 5 when it is empty, and [nrows = ceil(n / ncols)]
    rows: [Z.sqrt n] is the integer [s] with [s * s <= n < (s + 1) * (s + 1)],
    and [nrows] is the integer with [(nrows - 1) * ncols < n <= nrows * ncols].
    For 13 rows and no logo the grid is 3 rows of 5 columns. *)
Theorem grid_layout (n : Z) (logo_path : string) :
  (1 <= n)%Z ->
  let mincols := if String.eqb logo_path "" then 5%Z else 6%Z in
  let nrows := fst (grid_size n logo_path) in
  let ncols := snd (grid_size n logo_path) in
  ncols = Z.max mincols (Zfloor (sqrt (IZR n)))
  /\ nrows = Zceil (IZR n / IZR ncols)
  /\ ncols = Z.max mincols (Z.sqrt n)
  /\ (Z.sqrt n * Z.sqrt n <= n < (Z.sqrt n + 1) * (Z.sqrt n + 1))%Z
  /\ ((nrows - 1) * ncols < n <= nrows * ncols)%Z
  /\ grid_size 13 "" = (3%Z, 5%Z).
Proof.
  intros Hn mincols nrows ncols.
  assert (ncols = Z.max mincols (Zfloor (sqrt (IZR n)))) as Hcols.
  { subst ncols mincols. unfold grid_size. cbn [snd].
    destruct (logo_path =? "")%string; reflexivity. }
  split; [exact Hcols |]. split; [reflexivity |]. clear Hcols.
  assert (grid_size n logo_path = grid_size_int n logo_path) as E
      by (apply grid_size_on_integers; lia).
  subst nrows ncols. rewrite E. unfold grid_size_int. cbn [fst snd].
  replace (if negb (logo_path =? "")%string then 6%Z else 5%Z) with mincols
    by (subst mincols; destruct (logo_path =? "")%string; reflexivity).
  assert (5 <= mincols)%Z as Hm
      by (subst mincols; destruct (logo_path =? "")%string; lia).
  set (ncols := Z.max mincols (Z.sqrt n)).
  assert (0 < ncols)%Z as Hc by (subst ncols; lia).
  repeat split.
  - pose proof (Z.sqrt_spec n ltac:(lia)) as [H _]. exact H.
  - pose proof (Z.sqrt_spec n ltac:(lia)) as [_ H]. cbv zeta in H. lia.
  - pose proof (Z.div_mod (n + ncols - 1) ncols ltac:(lia)) as Hdm.
    pose proof (Z.mod_pos_bound (n + ncols - 1) ncols Hc) as Hr. nia.
  - pose proof (Z.div_mod (n + ncols - 1) ncols ltac:(lia)) as Hdm.
    pose proof (Z.mod_pos_bound (n + ncols - 1) ncols Hc) as Hr. nia.
  - rewrite grid_size_on_integers by lia. reflexivity.
Qed.

Lemma grid_layout_witness :
  snd (grid_size 13 "") = Z.max 5 (Z.sqrt 13)
  /\ ((fst (grid_size 13 "") - 1) * snd (grid_size 13 "") < 13
      <= fst (grid_size 13 "") * snd (grid_size 13 ""))%Z.
Proof.
  pose proof (grid_layout 13 "" ltac:(lia)) as H. cbv zeta in H.
  destruct H as (_ & _ & H1 & _ & H3 & _). split; [exact H1 | exact H3].
Defined.

(** ** Deduplication: the kept rows *)

Lemma key_eqb_eq (a b : Z * Z) : key_eqb a b = true <-> a = b.
Proof.
  destruct a as [a1 a2], b as [b1 b2]. unfold key_eqb. cbn.
  rewrite andb_true_iff, !Z.eqb_eq. split.
  - intros [-> ->]. reflexivity.
  - intros E. injection E as -> ->. auto.
Qed.

Lemma seen_spec (k : Z * Z) (seen : list (Z * Z)) :
  existsb (key_eqb k) seen = true <-> In k seen.
Proof.
  rewrite existsb_exists. split.
  - intros [k' [Hin E]]. apply key_eqb_eq in E. subst k'. exact Hin.
  - intros Hin. exists k. split; [exact Hin | apply key_eqb_eq; reflexivity].
Qed.

Lemma drop_duplicates_from_keys (l : list PRow) :
  forall seen,
    NoDup (map pixel_key (drop_duplicates_from seen l))
    /\ forall p, In p (drop_duplicates_from seen l) ->
                 In p l /\ ~ In (pixel_key p) seen.
Proof.
  induction l as [| q l IH]; intros seen; cbn.
  - split; [constructor | intros p []].
  - destruct (existsb (key_eqb (pixel_key q)) seen) eqn:E.
    + destruct (IH seen) as [Hnd Hin]. split; [exact Hnd |].
      intros p Hp. destruct (Hin p Hp). auto.
    + destruct (IH (pixel_key q :: seen)) as [Hnd Hin]. split.
      * cbn. constructor; [| exact Hnd].
        intros Hq. apply in_map_iff in Hq as [p [Ek Hp]].
        destruct (Hin p Hp) as [_ Hns]. apply Hns. left. symmetry. exact Ek.
      * intros p [<- | Hp].
        -- split; [left; reflexivity |].
           intros Hs. apply seen_spec in Hs. congruence.
        -- destruct (Hin p Hp) as [Hl Hns]. split; [right; exact Hl |].
           intros Hs. apply Hns. right. exact Hs.
Qed.

Lemma drop_duplicates_subset (l : list PRow) (p : PRow) :
  In p (drop_duplicates l) -> In p l.
Proof. intros Hin. apply (drop_duplicates_from_keys l [] ). exact Hin. Qed.

(** ** The projection step *)

Section ProjectionFacts.

Variable w : World.

Lemma safe_radec2pix_position (r : Row) (errs : list wcs_error) :
  safe_radec2pix w r errs = (position_of w r, errs ++ error_of w r).
Proof.
  unfold safe_radec2pix, position_of, error_of.
  destruct (try_radec2pix w r); [rewrite app_nil_r |]; reflexivity.
Qed.

Lemma apply_safe_radec2pix_spec (df : list Row) (errs : list wcs_error) :
  apply_safe_radec2pix w df errs
  = (map (position_of w) df, errs ++ flat_map (error_of w) df).
Proof.
  revert errs. induction df as [| r df IH]; intros errs; cbn.
  - rewrite app_nil_r. reflexivity.
  - rewrite safe_radec2pix_position, IH, <- app_assoc. reflexivity.
Qed.

Lemma combine_with_map {A B : Type} (f : A -> B) (l : list A) :
  combine l (map f l) = map (fun a => (a, f a)) l.
Proof. induction l as [| a l IH]; cbn; [| rewrite IH]; reflexivity. Qed.

Lemma pixel_columns_finite (rp : Row * (pyfloat * pyfloat)) :
  finite_position rp = true -> pixel_columns rp = Ok (with_pixel_columns rp).
Proof.
  destruct rp as [r [x y]]. unfold finite_position, pixel_columns, with_pixel_columns.
  cbn. destruct x, y; cbn; intros H; try discriminate H. reflexivity.
Qed.

Lemma mapM_pixel_columns (l : list (Row * (pyfloat * pyfloat))) :
  Forall (fun rp => finite_position rp = true) l ->
  mapM pixel_columns l = Ok (map with_pixel_columns l).
Proof.
  induction 1 as [| rp l Hrp _ IH]; cbn; [reflexivity |].
  rewrite (pixel_columns_finite rp Hrp). cbn. rewrite IH. reflexivity.
Qed.

(** On a frame with a row the conversion to integer pixel columns never
    raises: it only sees the finite positions. *)
Lemma projected_spec (df : list Row) :
  df <> [] ->
  projected w df
  = Ok (map with_pixel_columns
            (filter finite_position (map (fun r => (r, position_of w r)) df))).
Proof.
  intros Hne. unfold projected. destruct df as [| r df']; [contradiction |].
  rewrite apply_safe_radec2pix_spec. cbn [fst].
  rewrite combine_with_map. apply mapM_pixel_columns.
  apply Forall_forall. intros rp Hin. apply filter_In in Hin. apply Hin.
Qed.

Lemma projected_rows (df : list Row) (df1 : list PRow) :
  projected w df = Ok df1 -> df <> [].
Proof. intros E ->. discriminate E. Qed.

Lemma position_of_finite (r : Row) :
  finite_position (r, position_of w r) = true ->
  exists x y, radec2pix w (ra r) (dec r) = Ok (Fin x, Fin y)
              /\ position_of w r = (Fin x, Fin y).
Proof.
  unfold finite_position, position_of, try_radec2pix. cbn [fst snd].
  destruct (radec2pix w (ra r) (dec r)) as [[x y] | msg]; cbn.
  - destruct x, y; cbn; intros H; try discriminate H. eauto.
  - intros H; discriminate H.
Qed.

Lemma in_projected (df : list Row) (df1 : list PRow) (p : PRow) :
  projected w df = Ok df1 -> In p df1 ->
  In (row p) df
  /\ exists x y, radec2pix w (ra (row p)) (dec (row p)) = Ok (Fin x, Fin y)
                 /\ Pixel_Position p = (Fin x, Fin y)
                 /\ px p = py_round x /\ py p = py_round y.
Proof.
  intros E Hin. rewrite (projected_spec df (projected_rows df df1 E)) in E.
  injection E as <-.
  apply in_map_iff in Hin as [[r pos] [<- Hin]].
  apply filter_In in Hin as [Hin Hfin].
  apply in_map_iff in Hin as [r' [E Hr]]. injection E as -> <-.
  destruct (position_of_finite r Hfin) as (x & y & Hp & Hpos).
  split; [exact Hr |]. exists x, y. cbn. rewrite Hpos. cbn. auto.
Qed.

Lemma projection_fails_position (r : Row) :
  projection_fails w r ->
  position_of w r = (NaN, NaN)
  /\ exists msg, error_of w r = [(main_id r, ra r, dec r, msg)].
Proof.
  unfold position_of, error_of, try_radec2pix.
  intros [[msg E] | (x & y & E & Hnf)]; rewrite E; cbn.
  - eauto.
  - rewrite Hnf. cbn. eauto.
Qed.

Lemma working_set_spec (W H : Z) (catalogs : Catalogs) (df : list Row) :
  df <> [] ->
  working_set w W H catalogs df
  = Ok (drop_duplicates
          (of_selected_type catalogs
             (in_bounds W H
                (map with_pixel_columns
                   (filter finite_position
                      (map (fun r => (r, position_of w r)) df)))))).
Proof. intros Hne. unfold working_set. rewrite (projected_spec df Hne). reflexivity. Qed.

Lemma working_set_rows (W H : Z) (catalogs : Catalogs) (df : list Row)
      (dfi : list PRow) :
  working_set w W H catalogs df = Ok dfi -> df <> [].
Proof. intros E ->. discriminate E. Qed.

(** A merged frame without columns has no rows. *)
Lemma builtin_without_columns (filepath catalog_type : string) :
  builtin_has_columns w filepath = false ->
  load_builtin_catalog w filepath catalog_type = [].
Proof.
  unfold builtin_has_columns, load_builtin_catalog.
  destruct (path_exists w filepath); [| reflexivity]. cbn [andb negb].
  destruct (read_csv w filepath) as [df | msg]; [| reflexivity].
  intros ->. reflexivity.
Qed.

Lemma no_columns_no_rows (W H : Z) (catalogs : Catalogs) (df_list : list (list Row)) :
  load_frames w W H catalogs = Ok df_list ->
  merged_has_columns w catalogs = false ->
  List.concat df_list = [].
Proof.
  unfold load_frames, merged_has_columns, local_frames.
  generalize (filter (fun kf => selected catalogs (fst kf)) catalog_files).
  intros l El Hc. apply orb_false_iff in Hc as [Hloc Hsim].
  destruct (simbad_catalogs catalogs); [| discriminate Hsim].
  injection El as <-.
  induction l as [| kf l IH]; [reflexivity |].
  cbn [existsb] in Hloc. apply orb_false_iff in Hloc as [Hkf Hl].
  cbn [map List.concat]. rewrite (builtin_without_columns _ _ Hkf). exact (IH Hl).
Qed.

End ProjectionFacts.


(** C3: a row that passes the bounds filter has
    [m < px < W - m] and [m < py < H - m], strictly, for
    [m = min_patch_size = round(max(W, H) / 100)], where [px] and [py] are
    the rounded coordinates of its finite pixel position. *)
Theorem bounds_filter_margin (w : World) (W H : Z) (df : list Row)
        (df1 : list PRow) (p : PRow) :
  projected w df = Ok df1 ->
  In p (in_bounds W H df1) ->
  let m := min_patch_size W H in
  m = round_div (Z.max W H) 100
  /\ (exists x y, Pixel_Position p = (Fin x, Fin y)
                  /\ px p = py_round x /\ py p = py_round y)
  /\ (m < px p < W - m)%Z
  /\ (m < py p < H - m)%Z.
Proof.
  intros Hproj Hin m.
  unfold in_bounds in Hin. apply filter_In in Hin as [Hin Hb].
  fold m in Hb. unfold bounds_ok in Hb.
  apply andb_prop in Hb as [Hb Hy2]. apply andb_prop in Hb as [Hb Hx2].
  apply andb_prop in Hb as [Hx1 Hy1].
  apply Z.ltb_lt in Hx1, Hy1, Hx2, Hy2.
  split; [| split; [| split; split; assumption]].
  - subst m. unfold min_patch_size.
    change 100%R with (IZR 100). apply py_round_div. lia.
  - destruct (in_projected w df df1 p Hproj Hin) as (_ & x & y & _ & Hpos & Hx & Hy).
    exists x, y. auto.
Qed.

(** ** Deduplication: the first row of a key, a second pass *)

Lemma drop_duplicates_from_first (k : Z * Z) (l : list PRow) :
  forall seen,
    find (has_key k) (drop_duplicates_from seen l)
    = if existsb (key_eqb k) seen then None else find (has_key k) l.
Proof.
  induction l as [| q l IH]; intros seen; cbn.
  - destruct (existsb (key_eqb k) seen); reflexivity.
  - destruct (existsb (key_eqb (pixel_key q)) seen) eqn:Eq.
    + rewrite IH. destruct (existsb (key_eqb k) seen) eqn:Ek; [reflexivity |].
      unfold has_key at 2. destruct (key_eqb (pixel_key q) k) eqn:Eqk; [| reflexivity].
      apply key_eqb_eq in Eqk. rewrite Eqk in Eq. congruence.
    + cbn. unfold has_key at 1 3. destruct (key_eqb (pixel_key q) k) eqn:Eqk.
      * apply key_eqb_eq in Eqk. rewrite <- Eqk, Eq. reflexivity.
      * rewrite IH. cbn. destruct (key_eqb k (pixel_key q)) eqn:Ekq.
        -- apply key_eqb_eq in Ekq. subst k.
           rewrite (proj2 (key_eqb_eq _ _) eq_refl) in Eqk. discriminate Eqk.
        -- cbn. reflexivity.
Qed.

Lemma drop_duplicates_from_idempotent (l : list PRow) :
  forall seen,
    drop_duplicates_from seen (drop_duplicates_from seen l)
    = drop_duplicates_from seen l.
Proof.
  induction l as [| q l IH]; intros seen; cbn; [reflexivity |].
  destruct (existsb (key_eqb (pixel_key q)) seen) eqn:E.
  - apply IH.
  - cbn. rewrite E. f_equal. apply IH.
Qed.

(** C4: [drop_duplicates] on the key [(px, py)], the rounded pixel
    position, leaves at most one row per key, keeps for every key the
    first row of the input that has it, and is idempotent: a second pass
    changes nothing, so the row count and the identifiers stay. *)
Theorem drop_duplicates_first_unique_idempotent (l : list PRow) :
  NoDup (map pixel_key (drop_duplicates l))
  /\ (forall k, find (has_key k) (drop_duplicates l) = find (has_key k) l)
  /\ drop_duplicates (drop_duplicates l) = drop_duplicates l
  /\ List.length (drop_duplicates (drop_duplicates l)) = List.length (drop_duplicates l)
  /\ map (fun p => main_id (row p)) (drop_duplicates (drop_duplicates l))
     = map (fun p => main_id (row p)) (drop_duplicates l)
  /\ (forall w df df1 p,
        projected w df = Ok df1 -> In p df1 ->
        exists x y, Pixel_Position p = (Fin x, Fin y)
                    /\ pixel_key p = (py_round x, py_round y)).
Proof.
  unfold drop_duplicates.
  pose proof (drop_duplicates_from_idempotent l []) as Hid.
  split; [| split; [| split; [| split; [| split]]]].
  - apply drop_duplicates_from_keys.
  - intros k. rewrite drop_duplicates_from_first. reflexivity.
  - exact Hid.
  - rewrite Hid. reflexivity.
  - rewrite Hid. reflexivity.
  - intros w df df1 p Hproj Hin.
    destruct (in_projected w df df1 p Hproj Hin) as (_ & x & y & _ & Hpos & Hx & Hy).
    exists x, y. unfold pixel_key. rewrite Hx, Hy. auto.
Qed.

(** ** Evaluating the test worlds *)

Lemma py_round_nearest (r : R) (z : Z) :
  (IZR z - 1 / 2 < r < IZR z + 1 / 2)%R -> py_round r = z.
Proof.
  intros [Hlo Hhi]. pose proof (py_round_near r) as [Nlo Nhi].
  assert (IZR (py_round r) < IZR (z + 1))%R as H1 by (rewrite plus_IZR; lra).
  assert (IZR (z - 1) < IZR (py_round r))%R as H2 by (rewrite minus_IZR; lra).
  apply lt_IZR in H1, H2. lia.
Qed.

Lemma min_patch_size_on_integers (W H : Z) :
  min_patch_size W H = round_div (Z.max W H) 100.
Proof.
  unfold min_patch_size. change 100%R with (IZR 100). apply py_round_div. lia.
Qed.

Lemma test_rows_loaded :
  load_builtin_catalog (flat_world 100 test_files)
    "C:/Program Files/Siril/share/siril/catalogue/messier.csv" "M" = test_rows.
Proof. reflexivity. Qed.

Lemma test_frames_loaded (W H : Z) :
  load_frames (flat_world 100 test_files) W H (interface_catalogs false)
  = Ok [test_rows; []; []].
Proof. reflexivity. Qed.

(** ** The patch sizer *)

Lemma hypot_nonneg (x y : R) : (0 <= hypot x y)%R.
Proof. unfold hypot. apply sqrt_pos. Qed.

Lemma hypot_scale (k x y : R) :
  (0 <= k)%R -> hypot (k * x) (k * y) = (k * hypot x y)%R.
Proof.
  intros Hk. unfold hypot.
  replace (k * x * (k * x) + k * y * (k * y))%R
    with ((k * k) * (x * x + y * y))%R by ring.
  rewrite sqrt_mult by nra. rewrite sqrt_square by exact Hk. reflexivity.
Qed.

Lemma hypot_0_l (s : R) : (0 <= s)%R -> hypot 0 s = s.
Proof.
  intros Hs. unfold hypot.
  replace (0 * 0 + s * s)%R with (s * s)%R by ring. apply sqrt_square. exact Hs.
Qed.

Lemma hypot_0_r (s : R) : (0 <= s)%R -> hypot s 0 = s.
Proof.
  intros Hs. unfold hypot.
  replace (s * s + 0 * 0)%R with (s * s)%R by ring. apply sqrt_square. exact Hs.
Qed.

Section PatchFacts.

Variable w : World.
Variables x0 y0 a b c d : R.
Hypothesis Hlin : linear_projector w x0 y0 a b c d.

(** Under a linear projector the mean pixel distance of the two pairs
    is the half size times the sum of the two axis scales. *)
Lemma wcs_patch_size_linear (m : Z) (r : Row) (alpha delta size : R) :
  ra r = Fin alpha -> dec r = Fin delta ->
  (0 <= size)%R ->
  offsets_kept w alpha delta (size / 2 / 60) ->
  wcs_patch_size w m r (Fin size)
  = Ok (Z.max m (py_round (size / 2 / 60 * (hypot b d + hypot a c) * 2)),
        Fin (size / 2 / 60 * (hypot b d + hypot a c))).
Proof.
  intros Hra Hdec Hsize (Ht & Hb & Hl & Hr).
  unfold wcs_patch_size. rewrite Hra, Hdec.
  cbn [fdiv_const fadd fsub fneg].
  set (h := (size / 2 / 60)%R) in *.
  rewrite Ht, Hb, Hl, Hr. cbn [bind fst snd].
  rewrite !Hlin. cbn [bind fst snd fsub fadd fneg fhypot fdiv_const fmul size_factor int_round].
  assert (0 <= h)%R as Hh by (subst h; lra).
  set (dd := hypot _ _). set (dr := hypot _ _).
  assert (dd = 2 * h * hypot b d)%R as Edd.
  { subst dd. rewrite <- hypot_scale by lra. f_equal; ring. }
  assert (dr = 2 * h * hypot a c)%R as Edr.
  { subst dr. rewrite <- hypot_scale by lra. f_equal; ring. }
  replace ((dd + dr) / 2)%R with (h * (hypot b d + hypot a c))%R
    by (rewrite Edd, Edr; field).
  reflexivity.
Qed.

End PatchFacts.

Lemma fis_zero_pos (x : R) : (0 < x)%R -> fis_zero (Fin x) = false.
Proof.
  intros Hx. unfold fis_zero.
  destruct (Req_dec_T x 0) as [E | _]; [lra | reflexivity].
Qed.

Lemma fgtb_Fin (x y : R) : fgtb (Fin x) (Fin y) = true <-> (y < x)%R.
Proof.
  unfold fgtb. destruct (Rlt_dec y x) as [H | H]; split; intros; auto; discriminate.
Qed.

(** The style chain keeps the estimate unless the LEDA branch resets it. *)
Lemma styled_size (main_object : string) (m : Z) (r : Row) (color0 : string)
      (sz : Z * pyfloat) :
  snd (styled main_object m r color0 sz)
  = if leda_override main_object r then (m, Fin (IZR m)) else sz.
Proof.
  unfold styled, leda_override.
  destruct (main_id r =? main_object)%string; [reflexivity |].
  cbn [negb andb].
  destruct (TYPE r =? "M")%string eqn:E1.
  { apply String.eqb_eq in E1. rewrite E1. reflexivity. }
  destruct (TYPE r =? "NGC")%string eqn:E2.
  { apply String.eqb_eq in E2. rewrite E2. reflexivity. }
  destruct (TYPE r =? "SAI")%string eqn:E3.
  { apply String.eqb_eq in E3. rewrite E3. reflexivity. }
  destruct (TYPE r =? "UGC")%string eqn:E4.
  { apply String.eqb_eq in E4. rewrite E4. reflexivity. }
  destruct (TYPE r =? "MCG")%string eqn:E5.
  { apply String.eqb_eq in E5. rewrite E5. reflexivity. }
  destruct (TYPE r =? "IC")%string eqn:E6.
  { apply String.eqb_eq in E6. rewrite E6. reflexivity. }
  destruct (TYPE r =? "LEDA")%string; cbn [andb]; [| reflexivity].
  destruct (negb (isnan (galdim_majaxis r)) && fgtb (galdim_majaxis r) (Fin (18 / 10)));
    reflexivity.
Qed.

Lemma patch_of_row_size (w : World) (catalogs : Catalogs) (main_object : string)
      (m : Z) (r : Row) :
  snd (fst (patch_of_row w catalogs main_object m r))
  = if leda_override main_object r then (m, Fin (IZR m))
    else fst (estimate_patch w m r).
Proof.
  unfold patch_of_row. destruct (estimate_patch w m r) as [sz logs].
  cbn [fst]. apply styled_size.
Qed.

Lemma estimate_patch_at_least (w : World) (m : Z) (r : Row) :
  (m <= fst (fst (estimate_patch w m r)))%Z.
Proof.
  unfold estimate_patch.
  destruct (fis_zero (angular_size_of r)); [cbn; lia |].
  unfold wcs_patch_size.
  repeat match goal with
         | |- context [bind ?c _] => destruct c; cbn [bind]; [| cbn; lia]
         end.
  cbn. lia.
Qed.

(** C2, as amended: a LEDA row that is not the main object of the image
    (its identifier differs from the title) and whose angular size is
    not missing and exceeds 1.8 arc minutes gets [min_patch_size] as
    patch size and as diameter in pixels, whatever the projector and the
    projected diameter. *)
Theorem leda_override_min_patch_size (w : World) (catalogs : Catalogs)
        (title : string) (m : Z) (r : Row) :
  TYPE r = "LEDA"%string ->
  isnan (galdim_majaxis r) = false ->
  fgtb (galdim_majaxis r) (Fin (18 / 10)) = true ->
  main_id r <> title ->
  patch_size_of w catalogs title m r = m
  /\ patch_diameter_of w catalogs title m r = Fin (IZR m).
Proof.
  intros Ht Hnan Hgt Hid.
  unfold patch_size_of, patch_diameter_of. rewrite patch_of_row_size.
  unfold leda_override. rewrite Ht, Hnan, Hgt.
  apply String.eqb_neq in Hid. rewrite Hid. cbn. auto.
Qed.

(** C5, as amended: two rows at one sky position with angular sizes
    [0 < a1 < a2], under a projector that is linear in the sky
    coordinates and with the four offset points of both rows built as
    given; when the LEDA branch does not reset the row of size [a2], its
    patch size before the clipping is not smaller than that of the row of
    size [a1], and is [max(min_patch_size, round(2 * mean pixel distance))],
    the mean distance being the half size in degrees times the sum of the
    scales of the two axes. *)
Theorem patch_size_monotone_in_angular_size
        (w : World) (catalogs : Catalogs) (title : string) (m : Z)
        (r1 r2 : Row) (alpha delta a1 a2 x0 y0 a b c d : R) :
  linear_projector w x0 y0 a b c d ->
  ra r1 = Fin alpha -> dec r1 = Fin delta ->
  ra r2 = Fin alpha -> dec r2 = Fin delta ->
  galdim_majaxis r1 = Fin a1 -> galdim_majaxis r2 = Fin a2 ->
  (0 < a1 < a2)%R ->
  offsets_kept w alpha delta (a1 / 2 / 60) ->
  offsets_kept w alpha delta (a2 / 2 / 60) ->
  leda_override title r2 = false ->
  (patch_size_of w catalogs title m r1 <= patch_size_of w catalogs title m r2)%Z
  /\ patch_size_of w catalogs title m r2
     = Z.max m (py_round (a2 / 2 / 60 * (hypot b d + hypot a c) * 2)).
Proof.
  intros Hlin Hra1 Hdec1 Hra2 Hdec2 Hg1 Hg2 [Hpos Hlt] Hk1 Hk2 Hov.
  assert (forall r s, ra r = Fin alpha -> dec r = Fin delta ->
                      galdim_majaxis r = Fin s -> (0 < s)%R ->
                      offsets_kept w alpha delta (s / 2 / 60) ->
                      fst (fst (estimate_patch w m r))
                      = Z.max m (py_round (s / 2 / 60 * (hypot b d + hypot a c) * 2)))
    as Hest.
  { intros r s Hra Hdec Hg Hs Hk. unfold estimate_patch, angular_size_of.
    rewrite Hg. cbn [isnan]. rewrite (fis_zero_pos s Hs).
    rewrite (wcs_patch_size_linear w x0 y0 a b c d Hlin m r alpha delta s Hra Hdec)
      by (lra || exact Hk).
    reflexivity. }
  assert (patch_size_of w catalogs title m r2
          = Z.max m (py_round (a2 / 2 / 60 * (hypot b d + hypot a c) * 2))) as E2.
  { unfold patch_size_of. rewrite patch_of_row_size, Hov.
    apply (Hest r2 a2); auto. lra. }
  split; [| exact E2]. rewrite E2.
  assert (py_round (a1 / 2 / 60 * (hypot b d + hypot a c) * 2)
          <= py_round (a2 / 2 / 60 * (hypot b d + hypot a c) * 2))%Z as Hmono.
  { apply py_round_le.
    pose proof (hypot_nonneg b d). pose proof (hypot_nonneg a c). nra. }
  unfold patch_size_of. rewrite patch_of_row_size.
  destruct (leda_override title r1); cbn [fst]; [lia |].
  rewrite (Hest r1 a1) by auto. lia.
Qed.

(** ** The flat test world *)

Lemma flat_world_linear (s : R) (files : string -> option CsvTable) :
  linear_projector (flat_world s files) 0 0 s 0 0 s.
Proof. intros alpha delta. cbn. do 2 f_equal; f_equal; ring. Qed.

Lemma flat_world_offsets_kept (s : R) (files : string -> option CsvTable)
      (alpha delta h : R) :
  offsets_kept (flat_world s files) alpha delta h.
Proof. repeat split. Qed.

Lemma flat_world_estimate (s : R) (files : string -> option CsvTable) (m : Z)
      (r : Row) (alpha delta size : R) :
  (0 <= s)%R -> (0 < size)%R ->
  ra r = Fin alpha -> dec r = Fin delta -> galdim_majaxis r = Fin size ->
  fst (estimate_patch (flat_world s files) m r)
  = (Z.max m (py_round (size * s / 30)), Fin (size * s / 60)).
Proof.
  intros Hs Hsize Hra Hdec Hg.
  unfold estimate_patch, angular_size_of. rewrite Hg. cbn [isnan].
  rewrite (fis_zero_pos size Hsize).
  rewrite (wcs_patch_size_linear _ 0 0 s 0 0 s (flat_world_linear s files)
             m r alpha delta size Hra Hdec)
    by (lra || apply flat_world_offsets_kept).
  rewrite (hypot_0_l s Hs), (hypot_0_r s Hs). cbn [fst].
  f_equal; [do 2 f_equal |  f_equal]; field.
Qed.

Lemma min_patch_size_4000_3000 : min_patch_size 4000 3000 = 40%Z.
Proof. rewrite min_patch_size_on_integers. reflexivity. Qed.

Lemma leda_large_as_main_object :
  patch_size_of (flat_world 3000 no_files) registry "LEDA2" 40 leda_large = 500%Z.
Proof.
  unfold patch_size_of. rewrite patch_of_row_size.
  change (leda_override "LEDA2" leda_large) with false. cbv iota.
  rewrite (flat_world_estimate 3000 no_files 40 leda_large 10 20 5)
    by (lra || reflexivity).
  cbn [fst]. rewrite (py_round_nearest _ 500) by lra. reflexivity.
Qed.

Lemma leda_small_patch :
  patch_size_of (flat_world 3000 no_files) registry "Andromeda" 40 leda_small = 100%Z.
Proof.
  unfold patch_size_of. rewrite patch_of_row_size.
  assert (leda_override "Andromeda" leda_small = false) as ->.
  { unfold leda_override. cbn.
    destruct (Rlt_dec (18 / 10) 1) as [C | _]; [lra | reflexivity]. }
  rewrite (flat_world_estimate 3000 no_files 40 leda_small 10 20 1)
    by (lra || reflexivity).
  cbn [fst]. rewrite (py_round_nearest _ 100) by lra. reflexivity.
Qed.

Lemma leda_large_override : leda_override "Andromeda" leda_large = true.
Proof.
  unfold leda_override. cbn.
  destruct (Rlt_dec (18 / 10) 5) as [_ | C]; [reflexivity | lra].
Qed.

Lemma leda_large_patch :
  patch_size_of (flat_world 3000 no_files) registry "Andromeda" 40 leda_large = 40%Z.
Proof.
  unfold patch_size_of. rewrite patch_of_row_size, leda_large_override. reflexivity.
Qed.

(** C2: a LEDA galaxy of 5 arc minutes that is the main object of the
    image keeps its projected size, 500 pixels, where the minimum is 40. *)
Lemma leda_main_object_keeps_projected_size :
  TYPE leda_large = "LEDA"%string
  /\ isnan (galdim_majaxis leda_large) = false
  /\ fgtb (galdim_majaxis leda_large) (Fin (18 / 10)) = true
  /\ min_patch_size 4000 3000 = 40%Z
  /\ patch_size_of (flat_world 3000 no_files) registry "LEDA2"
       (min_patch_size 4000 3000) leda_large = 500%Z
  /\ patch_size_of (flat_world 3000 no_files) registry "LEDA2"
       (min_patch_size 4000 3000) leda_large <> min_patch_size 4000 3000.
Proof.
  rewrite min_patch_size_4000_3000, leda_large_as_main_object.
  repeat split; try discriminate.
  apply fgtb_Fin. lra.
Qed.

Lemma leda_override_min_patch_size_witness :
  patch_size_of (flat_world 3000 no_files) registry "Andromeda" 40 leda_large = 40%Z
  /\ patch_diameter_of (flat_world 3000 no_files) registry "Andromeda" 40 leda_large
     = Fin (IZR 40).
Proof.
  apply (leda_override_min_patch_size (flat_world 3000 no_files) registry
           "Andromeda" 40 leda_large).
  - reflexivity.
  - reflexivity.
  - apply fgtb_Fin. lra.
  - discriminate.
Defined.

(** C5: of two LEDA galaxies at one position under a linear projector
    the one of 1 arc minute gets 100 pixels, the one of 5 arc minutes
    the minimum, 40. *)
Lemma leda_override_breaks_monotonicity :
  linear_projector (flat_world 3000 no_files) 0 0 3000 0 0 3000
  /\ ra leda_small = ra leda_large /\ dec leda_small = dec leda_large
  /\ galdim_majaxis leda_small = Fin 1 /\ galdim_majaxis leda_large = Fin 5
  /\ (0 < 1 < 5)%R
  /\ patch_size_of (flat_world 3000 no_files) registry "Andromeda" 40 leda_small = 100%Z
  /\ patch_size_of (flat_world 3000 no_files) registry "Andromeda" 40 leda_large = 40%Z
  /\ ~ (patch_size_of (flat_world 3000 no_files) registry "Andromeda" 40 leda_small
        <= patch_size_of (flat_world 3000 no_files) registry "Andromeda" 40 leda_large)%Z.
Proof.
  rewrite leda_small_patch, leda_large_patch.
  repeat split; try reflexivity; try lra; try lia.
  apply flat_world_linear.
Qed.

Lemma patch_size_monotone_in_angular_size_witness :
  (patch_size_of (flat_world 3000 no_files) registry "Andromeda" 40 ngc_small
   <= patch_size_of (flat_world 3000 no_files) registry "Andromeda" 40 ngc_large)%Z
  /\ patch_size_of (flat_world 3000 no_files) registry "Andromeda" 40 ngc_large
     = Z.max 40 (py_round (5 / 2 / 60 * (hypot 0 3000 + hypot 3000 0) * 2)).
Proof.
  apply (patch_size_monotone_in_angular_size (flat_world 3000 no_files) registry
           "Andromeda" 40 ngc_small ngc_large 10 20 1 5 0 0 3000 0 0 3000).
  - apply flat_world_linear.
  - reflexivity.
  - reflexivity.
  - reflexivity.
  - reflexivity.
  - reflexivity.
  - reflexivity.
  - lra.
  - apply flat_world_offsets_kept.
  - apply flat_world_offsets_kept.
  - reflexivity.
Defined.

(** ** The Simbad size threshold *)

Lemma py_max2_Fin (x y : R) : py_max2 (Fin x) (Fin y) = Fin (Rmax x y).
Proof.
  unfold py_max2, fgtb, Rmax.
  destruct (Rlt_dec x y) as [H | H]; destruct (Rle_dec x y) as [H' | H'];
    try reflexivity; try lra.
  f_equal. lra.
Qed.

(** C7, as amended: [minsize_arcmin] is 5 times the pixel scale in arc
    minutes, and the pixel scale is 60 times the larger of the absolute
    differences in right ascension and in declination (degrees) between
    [pix2radec(0, 0)] and [pix2radec(1, 1)]. *)
Theorem minsize_from_pixel_scale (w : World) (ra0 dec0 ra1 dec1 : R) :
  pix2radec w 0 0 = (Fin ra0, Fin dec0) ->
  pix2radec w 1 1 = (Fin ra1, Fin dec1) ->
  minsize_arcmin w = fmul (Fin 5) (pixsize_arcmin w)
  /\ pixsize_arcmin w = Fin (60 * Rmax (Rabs (ra1 - ra0)) (Rabs (dec1 - dec0)))
  /\ minsize_arcmin w = Fin (5 * (60 * Rmax (Rabs (ra1 - ra0)) (Rabs (dec1 - dec0)))).
Proof.
  intros H0 H1.
  assert (pixsize_arcmin w = Fin (60 * Rmax (Rabs (ra1 - ra0)) (Rabs (dec1 - dec0))))
    as Hp.
  { unfold pixsize_arcmin. rewrite H0, H1. cbn [fsub fadd fneg fabs].
    rewrite py_max2_Fin. reflexivity. }
  split; [reflexivity |]. split; [exact Hp |].
  unfold minsize_arcmin. rewrite Hp. reflexivity.
Qed.

Lemma flat_world_step :
  Rmax (Rabs (1 / 3000 - 0 / 3000)) (Rabs (1 / 3000 - 0 / 3000)) = (1 / 3000)%R.
Proof.
  replace (1 / 3000 - 0 / 3000)%R with (1 / 3000)%R by lra.
  rewrite Rmax_left by lra. apply Rabs_pos_eq. lra.
Qed.

Lemma minsize_from_pixel_scale_witness :
  minsize_arcmin (flat_world 3000 no_files)
  = fmul (Fin 5) (pixsize_arcmin (flat_world 3000 no_files))
  /\ pixsize_arcmin (flat_world 3000 no_files)
     = Fin (60 * Rmax (Rabs (1 / 3000 - 0 / 3000)) (Rabs (1 / 3000 - 0 / 3000)))
  /\ minsize_arcmin (flat_world 3000 no_files)
     = Fin (5 * (60 * Rmax (Rabs (1 / 3000 - 0 / 3000)) (Rabs (1 / 3000 - 0 / 3000)))).
Proof.
  apply (minsize_from_pixel_scale (flat_world 3000 no_files)
           (0 / 3000) (0 / 3000) (1 / 3000) (1 / 3000)); reflexivity.
Defined.

Lemma diagonal_distance (s : R) :
  (0 < s < 90)%R -> angular_distance_deg 0 0 s s <> s.
Proof.
  intros [Hs0 Hs1] E. unfold angular_distance_deg in E.
  pose proof PI_RGT_0 as Hpi.
  set (t := (s * PI / 180)%R) in *.
  replace (0 * PI / 180)%R with 0%R in E by lra.
  rewrite sin_0, cos_0 in E.
  replace (0 - t)%R with (- t)%R in E by ring. rewrite cos_neg in E.
  replace (0 * sin t + 1 * cos t * cos t)%R with (cos t * cos t)%R in E by ring.
  assert (0 < t < PI / 2)%R as [Ht0 Ht1].
  { subst t. split.
    - apply Rmult_lt_0_compat; [nra | lra].
    - assert (s * PI < 90 * PI)%R by nra. lra. }
  assert (0 < cos t)%R as Hc0 by (apply cos_gt_0; lra).
  assert (cos t < 1)%R as Hc1.
  { rewrite <- cos_0. apply cos_decreasing_1; lra. }
  assert (acos (cos t * cos t) = t) as Ea.
  { apply (f_equal (fun x => (x * PI / 180)%R)) in E. cbv beta in E.
    replace (acos (cos t * cos t) * 180 / PI * PI / 180)%R
      with (acos (cos t * cos t)) in E by (field; lra).
    exact E. }
  assert (cos (acos (cos t * cos t)) = cos t * cos t)%R as Hca
      by (apply cos_acos; nra).
  rewrite Ea in Hca. nra.
Qed.

(** C7: on a flat sky of 3000 pixels per degree the threshold is 0.1 arc
    minute, five times the larger coordinate step of 1/3000 degree; five
    times the angular distance of the two positions is another number. *)
Lemma pixel_scale_is_not_the_angular_distance :
  pix2radec (flat_world 3000 no_files) 0 0 = (Fin (0 / 3000), Fin (0 / 3000))
  /\ pix2radec (flat_world 3000 no_files) 1 1 = (Fin (1 / 3000), Fin (1 / 3000))
  /\ minsize_arcmin (flat_world 3000 no_files) = Fin (5 * (60 * (1 / 3000)))
  /\ minsize_arcmin (flat_world 3000 no_files)
     <> Fin (5 * (60 * angular_distance_deg (0 / 3000) (0 / 3000)
                                            (1 / 3000) (1 / 3000))).
Proof.
  assert (minsize_arcmin (flat_world 3000 no_files) = Fin (5 * (60 * (1 / 3000)))) as E.
  { unfold minsize_arcmin, pixsize_arcmin. cbn [pix2radec flat_world fsub fadd fneg fabs].
    rewrite py_max2_Fin. cbn [fmul minsize_pixels].
    replace (1 / 3000 + - (0 / 3000))%R with (1 / 3000 - 0 / 3000)%R by ring.
    rewrite flat_world_step. reflexivity. }
  rewrite E.
  repeat split.
  intros C. injection C as C.
  replace (0 / 3000)%R with 0%R in C by lra.
  apply (diagonal_distance (1 / 3000)); lra.
Qed.

(** ** The persisted options *)

(** C8, as amended: without the options file [load_config_file] answers
    the defaults [(None, 0.6, "circle", None)]; with it, the logo path is
    the stripped first line when that names a file and [None] when it
    does not, the alpha is the float of the stripped second line, the
    overlay type is the stripped third line, and a value whose line is
    missing keeps its default. Nothing is said of the catalog selection
    of a file of four lines or more. *)
Theorem load_config_file_lines (fs : FileSystem)
        (float_of_string : string -> option pyfloat) (path : string) :
  let load := load_config_file fs float_of_string path in
  (isfile fs path = false -> load = Ok (None, Fin (6 / 10), "circle"%string, None))
  /\ (isfile fs path = true ->
      match readlines fs path with
      | [] => load = Ok (None, Fin (6 / 10), "circle"%string, None)
      | [l1] => load = Ok (logo_of fs l1, Fin (6 / 10), "circle"%string, None)
      | [l1; l2] =>
          forall a, float_of_string (strip l2) = Some a ->
                    load = Ok (logo_of fs l1, a, "circle"%string, None)
      | [l1; l2; l3] =>
          forall a, float_of_string (strip l2) = Some a ->
                    load = Ok (logo_of fs l1, a, strip l3, None)
      | l1 :: l2 :: l3 :: l4 :: _ =>
          forall a, float_of_string (strip l2) = Some a ->
                    exists selected_catalogs,
                      load = Ok (logo_of fs l1, a, strip l3, selected_catalogs)
      end).
Proof.
  intros load. subst load. unfold load_config_file, logo_of. split.
  - intros ->. reflexivity.
  - intros ->.
    destruct (readlines fs path) as [| l1 [| l2 [| l3 [| l4 rest]]]]; cbn - [strip].
    + reflexivity.
    + destruct (isfile fs (strip l1)); reflexivity.
    + intros a Ha. unfold py_float. rewrite Ha. cbn - [strip].
      destruct (isfile fs (strip l1)); reflexivity.
    + intros a Ha. unfold py_float. rewrite Ha. cbn - [strip].
      destruct (isfile fs (strip l1)); reflexivity.
    + intros a Ha. unfold py_float. rewrite Ha. cbn - [strip].
      destruct (isfile fs (strip l1)); eexists; reflexivity.
Qed.

Lemma test_config_loaded :
  load_config_file test_fs test_float "Galaxy_Annotations.conf"
  = Ok (None, Fin (1 / 2), "boxes"%string, Some "boxes"%string).
Proof. reflexivity. Qed.

Lemma load_config_file_lines_witness :
  exists selected_catalogs,
    load_config_file test_fs test_float "Galaxy_Annotations.conf"
    = Ok (None, Fin (1 / 2), "boxes"%string, selected_catalogs).
Proof.
  pose proof (load_config_file_lines test_fs test_float "Galaxy_Annotations.conf")
    as [_ H].
  exact (H eq_refl (Fin (1 / 2)) eq_refl).
Defined.

(** C8: a file of four lines whose first line names no file and whose
    fourth line is [M,NGC]: the logo path is [None] and the catalog
    selection is the third line. *)
Lemma load_config_file_logo_and_line_4 :
  isfile test_fs "Galaxy_Annotations.conf" = true
  /\ readlines test_fs "Galaxy_Annotations.conf" = test_config_lines
  /\ map strip test_config_lines
     = [ "logo.png"%string; "0.50"%string; "boxes"%string; "M,NGC"%string ]
  /\ test_float "0.50" = Some (Fin (1 / 2))
  /\ load_config_file test_fs test_float "Galaxy_Annotations.conf"
     = Ok (None, Fin (1 / 2), "boxes"%string, Some "boxes"%string)
  /\ load_config_file test_fs test_float "Galaxy_Annotations.conf"
     <> Ok (Some "logo.png"%string, Fin (1 / 2), "boxes"%string, Some "M,NGC"%string).
Proof.
  rewrite test_config_loaded. repeat split. discriminate.
Qed.

(** ** The early returns *)

(** C9: the two early returns answer the count 0 before anything is
    drawn: the first when no frame was loaded, the second when the
    merged frame has rows and none is left after projection, bounds
    filter, type filter and deduplication. Sources that yield no row do
    not reach either. A failing Simbad query raises out of the run.
    Frames that were loaded without a row pass the first return, which
    tests the list of the frames, and on their merged frame the
    projection step raises: a ValueError when no frame has columns, a
    KeyError otherwise. *)
Theorem frames_without_rows_raise (w : World) (W H : Z) (catalogs : Catalogs)
        (title logo_path overlay_type : string) :
  (forall msg,
      load_frames w W H catalogs = Raise msg ->
      annotate_fit w W H catalogs title logo_path overlay_type = Raise msg)
  /\ (forall df_list,
        load_frames w W H catalogs = Ok df_list ->
        (df_list = [] ->
         annotate_fit w W H catalogs title logo_path overlay_type
         = Ok (0%Z, [EvPrint "No catalog data loaded."]))
        /\ (df_list <> [] -> List.concat df_list = [] ->
            annotate_fit w W H catalogs title logo_path overlay_type
            = Raise (if merged_has_columns w catalogs
                     then no_rows_error else no_columns_error))
        /\ (working_set w W H catalogs (List.concat df_list) = Ok [] ->
            annotate_fit w W H catalogs title logo_path overlay_type
            = Ok (0%Z, [EvPrint "No objects found in image boundary."]))).
Proof.
  split.
  { intros msg Hload. unfold annotate_fit. rewrite Hload. reflexivity. }
  intros df_list Hload. unfold annotate_fit. rewrite Hload. cbn [bind].
  split; [| split].
  - intros ->. reflexivity.
  - intros Hne Hempty. destruct df_list as [| d l]; [contradiction |].
    rewrite Hempty. destruct (merged_has_columns w catalogs); reflexivity.
  - intros Hws. pose proof (working_set_rows w W H catalogs _ _ Hws) as Hrows.
    destruct df_list as [| d l]; [contradiction Hrows; reflexivity |].
    destruct (merged_has_columns w catalogs) eqn:Hc.
    + rewrite Hws. reflexivity.
    + contradiction Hrows. exact (no_columns_no_rows w W H catalogs (d :: l) Hload Hc).
Qed.

Lemma frames_without_rows_raise_witness :
  annotate_fit (flat_world 100 no_files) 1000 1000 (interface_catalogs false)
               "Andromeda" "" "circles"
  = Raise "Cannot set a DataFrame without columns to the column Pixel_Position"
  /\ annotate_fit (flat_world 100 no_files) 1000 1000 (select_all (interface_catalogs true))
                  "Andromeda" "" "circles"
     = Raise "'Pixel_Position'".
Proof.
  split.
  - apply (proj2 (frames_without_rows_raise (flat_world 100 no_files) 1000 1000
                    (interface_catalogs false) "Andromeda" "" "circles")
                 [[]; []; []]);
      [reflexivity | discriminate | reflexivity].
  - apply (proj2 (frames_without_rows_raise (flat_world 100 no_files) 1000 1000
                    (select_all (interface_catalogs true)) "Andromeda" "" "circles")
                 [[]; []; []; []]);
      [reflexivity | discriminate | reflexivity].
Defined.

(** ** Command line mode *)

Lemma in_strs_In (s : string) (l : list string) : in_strs s l = true -> In s l.
Proof.
  unfold in_strs. rewrite existsb_exists. intros [k [Hin E]].
  apply String.eqb_eq in E. subst k. exact Hin.
Qed.

Lemma working_set_types (w : World) (W H : Z) (catalogs : Catalogs) (df : list Row) :
  df <> [] ->
  exists dfi,
    working_set w W H catalogs df = Ok dfi
    /\ Forall (fun p => In (TYPE (row p)) (filter_types catalogs)) dfi.
Proof.
  intros Hne. eexists. split; [apply (working_set_spec w W H catalogs df Hne) |].
  apply Forall_forall. intros p Hp. apply drop_duplicates_subset in Hp.
  unfold of_selected_type in Hp. apply filter_In in Hp as [_ Hp].
  apply in_strs_In. exact Hp.
Qed.

(** C10: without the GUI no entry has a check box, [get_selected] is
    the [selection_default] of the entry, the enabled codes are M, IC
    and NGC (the entries registered with a true default), no Simbad
    query is made, and every row of the working set has one of these
    three types. *)
Theorem cli_mode_enables_default_catalogs :
  (forall e, checkbox_var e = None -> get_selected e = selection_default e)
  /\ Forall (fun ke => checkbox_var (snd ke) = None) (interface_catalogs false)
  /\ filter_types (interface_catalogs false)
     = [ "M"%string; "IC"%string; "NGC"%string ]
  /\ keys (filter (fun ke => selection_default (snd ke)) registry)
     = [ "M"%string; "IC"%string; "NGC"%string ]
  /\ simbad_catalogs (interface_catalogs false) = []
  /\ (forall w W H,
        load_frames w W H (interface_catalogs false)
        = Ok (local_frames w (interface_catalogs false)))
  /\ (forall w W H df,
        df <> [] ->
        exists dfi,
          working_set w W H (interface_catalogs false) df = Ok dfi
          /\ Forall (fun p => In (TYPE (row p)) [ "M"%string; "IC"%string; "NGC"%string ])
                    dfi).
Proof.
  split; [| split; [| split; [| split; [| split; [| split]]]]].
  - intros e He. unfold get_selected. rewrite He. reflexivity.
  - repeat constructor.
  - reflexivity.
  - reflexivity.
  - reflexivity.
  - intros w W H. reflexivity.
  - intros w W H df Hne.
    apply (working_set_types w W H (interface_catalogs false) df Hne).
Qed.

(** ** A run on the test catalog *)

Ltac unfold_lists :=
  cbv - [Rplus Rmult Rminus Rdiv Ropp Rinv IZR Rlt_dec Req_dec_T Rabs Rmax sqrt
         py_round min_patch_size Zfloor Zceil hypot PI grid_size].

Lemma test_rows_projected :
  projected (flat_world 100 test_files) test_rows = Ok test_projected.
Proof.
  rewrite projected_spec by discriminate. unfold_lists.
  rewrite (py_round_nearest (100 * 5) 500) by lra.
  rewrite (py_round_nearest (100 * (5001 / 1000)) 500) by lra.
  rewrite (py_round_nearest (100 * (5002 / 1000)) 500) by lra.
  rewrite (py_round_nearest (100 * (5 / 100)) 5) by lra.
  reflexivity.
Qed.

Lemma min_patch_size_1000 : min_patch_size 1000 1000 = 10%Z.
Proof. rewrite min_patch_size_on_integers. reflexivity. Qed.

Lemma test_rows_in_bounds :
  in_bounds 1000 1000 test_projected = firstn 2 test_projected.
Proof. unfold in_bounds. rewrite min_patch_size_1000. reflexivity. Qed.

Lemma test_rows_working_set :
  working_set (flat_world 100 test_files) 1000 1000 (interface_catalogs false) test_rows
  = Ok test_working_set.
Proof.
  unfold working_set. rewrite test_rows_projected. cbn [bind].
  rewrite test_rows_in_bounds. reflexivity.
Qed.

Lemma test_rows_errors :
  projection_errors (flat_world 100 test_files) test_rows
  = [ ("M 3"%string, PInf, Fin 5, "radec2pix returned non-finite values"%string) ].
Proof. reflexivity. Qed.

Lemma test_frames_have_columns :
  merged_has_columns (flat_world 100 test_files) (interface_catalogs false) = true.
Proof. reflexivity. Qed.

(** The end-to-end case of the specification: a 1000 x 1000 image, one
    surviving object at pixel (500, 500) without a size; one box of the
    minimum patch size, 10, and a table of one thumbnail. *)
Example annotate_test_image :
  annotate_fit (flat_world 100 test_files) 1000 1000 (interface_catalogs false)
               "Andromeda" "" "boxes"
  = Ok (1%Z,
        [ EvAnnotate Boxes
            {| a_text := "1"; a_main_id := "M1"; a_px := 500; a_py := 500;
               a_fontsize := 18; a_color := "#80ff80";
               a_patch_size := 10; a_patch_diameter_pix := Fin (IZR 10);
               a_box := (495, 505, 495, 505)%Z |};
          EvSavefig Overlay;
          EvSubplots 1 5;
          EvThumbnail 0 "M1";
          EvSavefig Table;
          EvImageSave Combined ]).
Proof.
  unfold annotate_fit. rewrite test_frames_loaded. cbn [bind].
  change (List.concat [test_rows; []; []]) with test_rows.
  rewrite test_frames_have_columns, test_rows_working_set. cbn [bind].
  change (List.length test_working_set =? 0)%nat with false. cbv iota.
  change (ordered (interface_catalogs false) test_working_set)
    with [ mkPRow (mkRow "M1" (Fin 5) (Fin 5) "M" NaN)
                  (Fin (100 * 5), Fin (100 * 5)) 500 500 ].
  unfold render_table. cbn [List.length Z.of_nat Pos.of_succ_nat].
  rewrite grid_size_on_integers by lia.
  unfold annotate_rows, annotate_row. rewrite min_patch_size_1000.
  unfold patch_of_row, estimate_patch, angular_size_of.
  cbn [row galdim_majaxis isnan TYPE main_id].
  change (("M" =? "M")%string) with true. cbv iota.
  change (("M1" =? "M8")%string) with false.
  change (("M1" =? "M40")%string) with false.
  change (("M1" =? "M43")%string) with false.
  change (("M1" =? "M78")%string) with false.
  change (("M1" =? "M82")%string) with false. cbv iota.
  unfold fis_zero. destruct (Req_dec_T 0 0) as [_ | C]; [| exfalso; apply C; reflexivity].
  reflexivity.
Qed.


Lemma bounds_filter_margin_witness :
  let p := mkPRow (mkRow "M 1" (Fin 5) (Fin 5) "M" NaN)
                  (Fin (100 * 5), Fin (100 * 5)) 500 500 in
  let m := min_patch_size 1000 1000 in
  m = round_div (Z.max 1000 1000) 100
  /\ (exists x y, Pixel_Position p = (Fin x, Fin y)
                  /\ px p = py_round x /\ py p = py_round y)
  /\ (m < px p < 1000 - m)%Z
  /\ (m < py p < 1000 - m)%Z.
Proof.
  apply (bounds_filter_margin (flat_world 100 test_files) 1000 1000 test_rows
           test_projected).
  - exact test_rows_projected.
  - rewrite test_rows_in_bounds. left. reflexivity.
Defined.

(** ** The length of the ordered frame *)

Lemma insert_sorted_length (leb : PRow -> PRow -> bool) (p : PRow) (l : list PRow) :
  List.length (insert_sorted leb p l) = S (List.length l).
Proof.
  induction l as [| q l IH]; cbn; [reflexivity |].
  destruct (leb p q); cbn; [reflexivity | rewrite IH; reflexivity].
Qed.

Lemma ordered_length (catalogs : Catalogs) (dfi : list PRow) :
  List.length (ordered catalogs dfi) = List.length dfi.
Proof.
  unfold ordered, sort_values. rewrite <- (length_map strip_id dfi).
  induction (map strip_id dfi) as [| p l IH]; cbn; [reflexivity |].
  rewrite insert_sorted_length, IH. reflexivity.
Qed.

(* ================================================================== *)
(** * Part IV: further properties                                      *)
(* ================================================================== *)

(** ** Output file names *)

Lemma string_length_append (a b : string) :
  String.length (a ++ b) = (String.length a + String.length b)%nat.
Proof. induction a as [| c a IH]; cbn; [| rewrite IH]; reflexivity. Qed.

Lemma string_append_assoc (a b c : string) :
  ((a ++ b) ++ c = a ++ (b ++ c))%string.
Proof. induction a as [| x a IH]; cbn; [| rewrite IH]; reflexivity. Qed.

Lemma split_at_join (n : nat) (s : string) :
  (fst (split_at n s) ++ snd (split_at n s))%string = s.
Proof.
  revert s. induction n as [| n IH]; intros s; [reflexivity |].
  destruct s as [| c s]; [reflexivity |]. cbn.
  specialize (IH s). destruct (split_at n s) as [a b]. cbn in *. rewrite IH. reflexivity.
Qed.

Lemma split_at_length (a b : string) :
  split_at (String.length a) (a ++ b) = (a, b).
Proof.
  induction a as [| c a IH]; cbn; [destruct b; reflexivity |].
  rewrite IH. reflexivity.
Qed.

Lemma splitext_join (is_sep : ascii -> bool) (p : string) :
  (fst (splitext is_sep p) ++ snd (splitext is_sep p))%string = p.
Proof.
  unfold splitext.
  destruct (_ && _); [apply split_at_join |].
  cbn. induction p as [| c p IH]; cbn; [| rewrite IH]; reflexivity.
Qed.

Lemma rfind_from_none (f : ascii -> bool) (s : string) (i : Z) :
  has_char f s = false -> rfind_from f s i = (-1)%Z.
Proof.
  revert i. induction s as [| c s IH]; intros i H; cbn in *; [reflexivity |].
  apply orb_false_iff in H as [Hc Hs]. rewrite (IH _ Hs), Hc. reflexivity.
Qed.

Lemma rfind_from_range (f : ascii -> bool) (s : string) (i : Z) :
  (0 <= i)%Z ->
  rfind_from f s i = (-1)%Z
  \/ (i <= rfind_from f s i < i + Z.of_nat (String.length s))%Z.
Proof.
  revert i. induction s as [| c s IH]; intros i Hi; cbn [rfind_from String.length];
    [left; reflexivity |].
  destruct (IH (i + 1)%Z ltac:(lia)) as [E | R].
  - rewrite E. cbn. destruct (f c); [right; lia | left; reflexivity].
  - assert ((0 <=? rfind_from f s (i + 1))%Z = true) as -> by (apply Z.leb_le; lia).
    right. lia.
Qed.

Lemma rfind_from_append (f : ascii -> bool) (a b : string) (i : Z) :
  (0 <= i)%Z ->
  rfind_from f (a ++ b) i
  = if (0 <=? rfind_from f b (i + Z.of_nat (String.length a)))%Z
    then rfind_from f b (i + Z.of_nat (String.length a))
    else rfind_from f a i.
Proof.
  revert i. induction a as [| c a IH]; intros i Hi.
  - cbn. replace (i + 0)%Z with i by lia.
    destruct (rfind_from_range f b i Hi) as [-> | R]; [reflexivity |].
    assert ((0 <=? rfind_from f b i)%Z = true) as -> by (apply Z.leb_le; lia).
    reflexivity.
  - cbn [append rfind_from String.length]. rewrite IH by lia.
    replace (i + 1 + Z.of_nat (String.length a))%Z
      with (i + Z.of_nat (S (String.length a)))%Z by lia.
    destruct (0 <=? rfind_from f b (i + Z.of_nat (S (String.length a))))%Z eqn:E.
    + rewrite E. reflexivity.
    + reflexivity.
Qed.

Lemma has_non_dot_at (p : string) (lo hi k : nat) (c : ascii) :
  (lo <= k < hi)%nat -> String.get k p = Some c -> is_dot c = false ->
  has_non_dot p lo hi = true.
Proof.
  revert lo hi k. induction p as [| x p IH]; intros lo hi k Hk Hget Hc;
    [discriminate Hget |].
  cbn. destruct hi as [| hi]; [lia |].
  destruct lo as [| lo].
  - destruct k as [| k].
    + cbn in Hget. injection Hget as ->. rewrite Hc. reflexivity.
    + destruct (is_dot x); [| reflexivity].
      apply (IH 0%nat hi k); [lia | exact Hget | exact Hc].
  - destruct k as [| k]; [lia |].
    apply (IH lo hi k); [lia | exact Hget | exact Hc].
Qed.

Lemma get_append_middle (a b : string) (c : ascii) :
  String.get (String.length a) (a ++ String c b) = Some c.
Proof. induction a as [| x a IH]; cbn; [reflexivity | exact IH]. Qed.

Lemma has_char_append (f : ascii -> bool) (a b : string) :
  has_char f (a ++ b) = has_char f a || has_char f b.
Proof.
  induction a as [| c a IH]; cbn; [reflexivity |].
  rewrite IH, orb_assoc. reflexivity.
Qed.

(** [splitext] on a name with an extension: the stem has a character
    that is no dot after its last separator, the extension is a dot and
    characters that are neither dots nor separators. *)
Lemma splitext_extension (is_sep : ascii -> bool) (pre post e : string) (c : ascii) :
  is_sep "."%char = false ->
  is_dot c = false -> is_sep c = false ->
  has_char is_sep post = false ->
  has_char is_dot e = false -> has_char is_sep e = false ->
  splitext is_sep ((pre ++ String c post) ++ String "." e)
  = ((pre ++ String c post)%string, String "." e).
Proof.
  intros Hsd Hc Hcs Hpost Hed Hes.
  set (stem := (pre ++ String c post)%string).
  assert (rfind is_dot (stem ++ String "." e) = Z.of_nat (String.length stem)) as Edot.
  { unfold rfind. rewrite rfind_from_append by lia. cbn [rfind_from].
    rewrite (rfind_from_none is_dot e _ Hed). cbn.
    assert ((0 <=? Z.of_nat (String.length stem))%Z = true) as -> by (apply Z.leb_le; lia).
    reflexivity. }
  assert (rfind is_sep (stem ++ String "." e) < Z.of_nat (String.length pre))%Z as Esep.
  { unfold rfind, stem. rewrite string_append_assoc. cbn [append].
    rewrite rfind_from_append by lia.
    rewrite (rfind_from_none is_sep (String c (post ++ String "." e))).
    - cbn. destruct (rfind_from_range is_sep pre 0 ltac:(lia)) as [-> | R]; lia.
    - cbn. rewrite Hcs, has_char_append. cbn. rewrite Hpost, Hsd, Hes. reflexivity. }
  assert (-1 <= rfind is_sep (stem ++ String "." e))%Z as Esep0.
  { unfold rfind.
    destruct (rfind_from_range is_sep (stem ++ String "." e) 0 ltac:(lia)) as [-> | R]; lia. }
  assert (String.length stem = String.length pre + S (String.length post))%nat as Elen
      by (unfold stem; rewrite string_length_append; reflexivity).
  unfold splitext. rewrite Edot.
  assert ((rfind is_sep (stem ++ String "." e) <? Z.of_nat (String.length stem))%Z = true)
    as -> by (apply Z.ltb_lt; lia).
  rewrite (has_non_dot_at _ _ _ (String.length pre) c).
  - cbn [andb]. rewrite Nat2Z.id. apply split_at_length.
  - rewrite Nat2Z.id. lia.
  - unfold stem. rewrite string_append_assoc. cbn [append]. apply get_append_middle.
  - exact Hc.
Qed.

Lemma splitext_no_dot (is_sep : ascii -> bool) (p : string) :
  has_char is_dot p = false -> splitext is_sep p = (p, EmptyString).
Proof.
  intros H. unfold splitext, rfind. rewrite (rfind_from_none is_dot p 0 H).
  destruct (rfind_from_range is_sep p 0 ltac:(lia)) as [-> | R].
  - reflexivity.
  - assert ((rfind_from is_sep p 0 <? -1)%Z = false) as -> by (apply Z.ltb_ge; lia).
    reflexivity.
Qed.

(** X1: the combined, the overlay and the table file of one output name
    are three different names: one stem and one extension with nothing,
    [_overlay] and [_table] between them, and the extension is always one
    of the accepted formats. *)
Theorem output_names_distinct (is_sep : ascii -> bool) (output_basename : string) :
  exists stem ext,
    in_strs (lower ext) savefig_formats = true
    /\ get_combined_filename is_sep output_basename = (stem ++ ext)%string
    /\ get_overlay_filename is_sep output_basename = (stem ++ "_overlay" ++ ext)%string
    /\ get_table_filename is_sep output_basename = (stem ++ "_table" ++ ext)%string
    /\ get_combined_filename is_sep output_basename
       <> get_overlay_filename is_sep output_basename
    /\ get_combined_filename is_sep output_basename
       <> get_table_filename is_sep output_basename
    /\ get_overlay_filename is_sep output_basename
       <> get_table_filename is_sep output_basename.
Proof.
  unfold get_combined_filename, get_overlay_filename, get_table_filename,
    get_output_filename.
  assert (in_strs (lower (snd (output_parts is_sep output_basename))) savefig_formats = true)
    as Hext.
  { unfold output_parts. destruct (splitext is_sep output_basename) as [f e].
    destruct (e =? "")%string; [reflexivity |].
    destruct (in_strs (lower e) savefig_formats) eqn:E; cbn; [exact E | reflexivity]. }
  destruct (output_parts is_sep output_basename) as [stem ext]. cbn [snd] in Hext.
  exists stem, ext. cbn [append].
  repeat split; try exact Hext;
    intros E; apply (f_equal String.length) in E;
    rewrite !string_length_append in E; cbn in E; lia.
Qed.

(** X2: an output name without a dot gets [.png] after the suffix; a name
    with an extension keeps it, in its own spelling, when its lower case
    is an accepted format, and otherwise keeps the whole name and gets
    [.png] appended. *)
Theorem output_name_extension (is_sep : ascii -> bool) (suffix : string) :
  (forall base,
      has_char is_dot base = false ->
      get_output_filename is_sep base suffix = (base ++ suffix ++ ".png")%string)
  /\ (forall pre post e c,
         is_sep "."%char = false -> is_dot c = false -> is_sep c = false ->
         has_char is_sep post = false ->
         has_char is_dot e = false -> has_char is_sep e = false ->
         let stem := (pre ++ String c post)%string in
         let ext := String "." e in
         get_output_filename is_sep (stem ++ ext) suffix
         = if in_strs (lower ext) savefig_formats
           then (stem ++ suffix ++ ext)%string
           else ((stem ++ ext) ++ suffix ++ ".png")%string).
Proof.
  split.
  - intros base H. unfold get_output_filename, output_parts.
    rewrite (splitext_no_dot is_sep base H). reflexivity.
  - intros pre post e c Hsd Hc Hcs Hpost Hed Hes stem ext.
    unfold get_output_filename, output_parts. subst stem ext.
    rewrite (splitext_extension is_sep pre post e c Hsd Hc Hcs Hpost Hed Hes).
    cbn [String.eqb].
    destruct (in_strs (lower (String "." e)) savefig_formats); reflexivity.
Qed.

Lemma output_name_extension_witness :
  get_output_filename posix_sep "result" "_table" = "result_table.png"%string
  /\ get_output_filename posix_sep "result.tiff" "_overlay" = "result_overlay.tiff"%string
  /\ get_output_filename posix_sep "result.fit" "_overlay" = "result.fit_overlay.png"%string.
Proof.
  split; [| split].
  - apply (proj1 (output_name_extension posix_sep "_table") "result"%string).
    reflexivity.
  - apply (proj2 (output_name_extension posix_sep "_overlay")
                 "resul"%string ""%string "tiff"%string "t"%char); reflexivity.
  - apply (proj2 (output_name_extension posix_sep "_overlay")
                 "resul"%string ""%string "fit"%string "t"%char); reflexivity.
Defined.

(** ** The options file, written and read back *)

Lemma rstrip_line (s : string) : rstrip (s ++ nl) = rstrip s.
Proof.
  induction s as [| c s IH]; [reflexivity |].
  cbn [append rstrip]. rewrite IH. reflexivity.
Qed.

Lemma strip_line (s : string) : strip (s ++ nl) = strip s.
Proof.
  unfold strip. induction s as [| c s IH]; [reflexivity |].
  cbn [append lstrip]. destruct (is_space c); [exact IH |].
  change (String c (s ++ nl)) with (String c s ++ nl)%string. apply rstrip_line.
Qed.

Lemma py_readlines_line (a rest : string) :
  has_char is_newline a = false ->
  py_readlines (a ++ nl ++ rest) = (a ++ nl)%string :: py_readlines rest.
Proof.
  induction a as [| c a IH]; intros H; [reflexivity |].
  cbn in H. apply orb_false_iff in H as [Hc Ha].
  unfold is_newline in Hc. apply orb_false_iff in Hc as [Hlf Hcr].
  cbn [append py_readlines]. rewrite Hlf, Hcr.
  change (a ++ String "010" rest)%string with (a ++ nl ++ rest)%string.
  rewrite (IH Ha). reflexivity.
Qed.

Lemma config_text_lines (logo_path alpha_text overlay_type : string)
      (selected_catalogs : option string) :
  has_char is_newline logo_path = false ->
  has_char is_newline alpha_text = false ->
  has_char is_newline overlay_type = false ->
  match selected_catalogs with
  | Some s => has_char is_newline s = false
  | None => True
  end ->
  py_readlines (config_text logo_path alpha_text overlay_type selected_catalogs)
  = [ (logo_path ++ nl)%string; (alpha_text ++ nl)%string; (overlay_type ++ nl)%string ]
    ++ match selected_catalogs with
       | Some s => [ (s ++ nl)%string ]
       | None => []
       end.
Proof.
  intros Hl Ha Ht Hs. unfold config_text.
  rewrite (py_readlines_line logo_path _ Hl).
  rewrite string_append_assoc, (py_readlines_line alpha_text _ Ha).
  rewrite string_append_assoc, (py_readlines_line overlay_type _ Ht).
  destruct selected_catalogs as [s |]; [| reflexivity].
  replace (s ++ nl)%string with (s ++ nl ++ "")%string at 1 by reflexivity.
  rewrite (py_readlines_line s _ Hs). reflexivity.
Qed.

(** X3: what [save_config_file] writes, [load_config_file] reads back:
    the logo path when it names a file, the alpha that its two-decimal
    text parses to, the stripped overlay type; a catalog selection that
    was written comes back as the overlay type. The texts hold no line
    end. *)
Theorem save_then_load_config (fs : FileSystem) (format_2f : pyfloat -> string)
        (float_of_string : string -> option pyfloat)
        (path logo_path overlay_type : string) (overlay_alpha a : pyfloat)
        (selected_catalogs : option string) :
  has_char is_newline logo_path = false ->
  has_char is_newline (format_2f overlay_alpha) = false ->
  has_char is_newline overlay_type = false ->
  match selected_catalogs with
  | Some s => has_char is_newline s = false
  | None => True
  end ->
  float_of_string (strip (format_2f overlay_alpha)) = Some a ->
  let fs' := fst (save_config_file fs format_2f true path logo_path overlay_alpha
                                   overlay_type selected_catalogs) in
  load_config_file fs' float_of_string path
  = Ok (logo_of fs' logo_path, a, strip overlay_type,
        match selected_catalogs with
        | Some _ => Some (strip overlay_type)
        | None => None
        end).
Proof.
  intros Hl Ha Ht Hs Hf fs'. subst fs'. unfold save_config_file. cbn [fst].
  unfold load_config_file, write_file. cbn [isfile readlines].
  rewrite String.eqb_refl. cbn [orb].
  rewrite (config_text_lines _ _ _ _ Hl Ha Ht Hs).
  unfold logo_of. cbn [isfile].
  destruct selected_catalogs as [s |]; cbn [app List.length Nat.ltb Nat.leb nth];
    rewrite !strip_line; unfold py_float; rewrite Hf; cbn [bind];
    destruct (_ || _); reflexivity.
Qed.

Lemma save_then_load_config_witness :
  let fmt := fun _ : pyfloat => "0.60"%string in
  let parse := fun s : string =>
                 if String.eqb s "0.60" then Some (Fin (6 / 10)) else None in
  let fs' := fst (save_config_file logo_fs fmt true "Galaxy_Annotations.conf"
                                   "logo.png" (Fin (6 / 10)) "boxes" None) in
  load_config_file fs' parse "Galaxy_Annotations.conf"
  = Ok (logo_of fs' "logo.png", Fin (6 / 10), strip "boxes", None).
Proof.
  apply (save_then_load_config logo_fs (fun _ => "0.60"%string)
           (fun s => if String.eqb s "0.60" then Some (Fin (6 / 10)) else None)
           "Galaxy_Annotations.conf" "logo.png" "boxes"
           (Fin (6 / 10)) (Fin (6 / 10)) None); reflexivity || exact I.
Defined.

(** X4: a logo path that [load_config_file] returns names a file. *)
Theorem load_config_file_logo_is_a_file (fs : FileSystem)
        (float_of_string : string -> option pyfloat) (path logo : string)
        (alpha : pyfloat) (overlay_type : string) (selected_catalogs : option string) :
  load_config_file fs float_of_string path
  = Ok (Some logo, alpha, overlay_type, selected_catalogs) ->
  isfile fs logo = true /\ isfile fs path = true.
Proof.
  unfold load_config_file. destruct (isfile fs path); [| discriminate].
  destruct (0 <? List.length (readlines fs path))%nat.
  - destruct (isfile fs (strip (nth 0 (readlines fs path) EmptyString))) eqn:E; cbn [negb].
    + destruct (if (1 <? _)%nat then _ else _); cbn [bind]; [| discriminate].
      intros H. injection H as <- _ _ _. auto.
    + destruct (if (1 <? _)%nat then _ else _); cbn [bind]; discriminate.
  - destruct (if (1 <? _)%nat then _ else _); cbn [bind]; discriminate.
Qed.

Lemma load_config_file_logo_is_a_file_witness :
  let fmt := fun _ : pyfloat => "0.60"%string in
  let parse := fun s : string =>
                 if String.eqb s "0.60" then Some (Fin (6 / 10)) else None in
  let fs' := fst (save_config_file logo_fs fmt true "Galaxy_Annotations.conf"
                                   "logo.png" (Fin (6 / 10)) "boxes" None) in
  isfile fs' "logo.png" = true
  /\ isfile fs' "Galaxy_Annotations.conf" = true.
Proof.
  apply (load_config_file_logo_is_a_file
           (fst (save_config_file logo_fs (fun _ => "0.60"%string) true
                   "Galaxy_Annotations.conf" "logo.png"
                   (Fin (6 / 10)) "boxes" None))
           (fun s => if String.eqb s "0.60" then Some (Fin (6 / 10)) else None)
           "Galaxy_Annotations.conf" "logo.png" (Fin (6 / 10))
           "boxes" None).
  reflexivity.
Defined.

(** X5: [load_config_file] returns exactly when there is no options
    file, or it has fewer than two lines, or its second line parses as a
    float; otherwise it raises the ValueError of [float]. *)
Theorem load_config_file_returns_iff (fs : FileSystem)
        (float_of_string : string -> option pyfloat) (path : string) :
  (returns (load_config_file fs float_of_string path)
   <-> (isfile fs path = false
        \/ (List.length (readlines fs path) < 2)%nat
        \/ exists a, float_of_string (strip (nth 1 (readlines fs path) EmptyString)) = Some a))
  /\ (returns (load_config_file fs float_of_string path)
      \/ load_config_file fs float_of_string path
         = Raise "could not convert string to float").
Proof.
  unfold load_config_file, returns.
  destruct (isfile fs path).
  2:{ split; [split; [auto | intros _; eexists; reflexivity] | left; eexists; reflexivity]. }
  destruct (1 <? List.length (readlines fs path))%nat eqn:E.
  - apply Nat.ltb_lt in E. unfold py_float.
    destruct (float_of_string (strip (nth 1 (readlines fs path) EmptyString))) as [a |];
      cbn [bind].
    + split; [split; [eauto | intros _; eexists; reflexivity] | left; eexists; reflexivity].
    + split; [| right; reflexivity]. split.
      * intros [cfg C]. discriminate C.
      * intros [C | [C | [a C]]]; [discriminate C | lia | discriminate C].
  - apply Nat.ltb_ge in E. cbn [bind].
    split; [split; [intros _; right; left; lia | intros _; eexists; reflexivity]
           | left; eexists; reflexivity].
Qed.

(** ** The aggregator, end to end *)

Lemma drop_duplicates_keeps_key (l : list PRow) (q : PRow) :
  In q l -> exists p, In p (drop_duplicates l) /\ pixel_key p = pixel_key q.
Proof.
  intros Hq.
  destruct (find (has_key (pixel_key q)) l) as [p0 |] eqn:E.
  - pose proof (drop_duplicates_from_first (pixel_key q) l []) as Hf. cbn in Hf.
    fold (drop_duplicates l) in Hf. rewrite E in Hf.
    apply find_some in Hf as [Hin Hk]. exists p0. split; [exact Hin |].
    apply key_eqb_eq. exact Hk.
  - exfalso. pose proof (find_none _ _ E q Hq) as Hn.
    unfold has_key in Hn. rewrite (proj2 (key_eqb_eq _ _) eq_refl) in Hn.
    discriminate Hn.
Qed.

(** X6: on a merged frame with a row the working set is computed and
    has no two rows on one pixel; each of its rows is a row of the
    merged frame with a finite projection, inside the margins and of a
    selected type; and every such row of the merged frame has a row of
    the working set on its pixel. *)
Theorem working_set_sound_and_complete (w : World) (W H : Z) (catalogs : Catalogs)
        (df : list Row) :
  df <> [] ->
  exists dfi,
    working_set w W H catalogs df = Ok dfi
    /\ NoDup (map pixel_key dfi)
    /\ (forall p, In p dfi ->
          In (row p) df
          /\ in_strs (TYPE (row p)) (filter_types catalogs) = true
          /\ bounds_ok W H (min_patch_size W H) p = true
          /\ exists x y, radec2pix w (ra (row p)) (dec (row p)) = Ok (Fin x, Fin y)
                         /\ pixel_key p = (py_round x, py_round y))
    /\ (forall r x y,
          In r df ->
          radec2pix w (ra r) (dec r) = Ok (Fin x, Fin y) ->
          in_strs (TYPE r) (filter_types catalogs) = true ->
          bounds_ok W H (min_patch_size W H) (mkPRow r (Fin x, Fin y) (py_round x) (py_round y))
          = true ->
          exists p, In p dfi /\ pixel_key p = (py_round x, py_round y)).
Proof.
  intros Hne. eexists. split; [apply (working_set_spec w W H catalogs df Hne) |].
  set (df1 := map with_pixel_columns
                  (filter finite_position (map (fun r => (r, position_of w r)) df))).
  assert (projected w df = Ok df1) as Hproj by apply (projected_spec w df Hne).
  split; [apply drop_duplicates_from_keys |]. split.
  - intros p Hp. apply drop_duplicates_subset in Hp.
    unfold of_selected_type in Hp. apply filter_In in Hp as [Hp Ht].
    unfold in_bounds in Hp. apply filter_In in Hp as [Hp Hb].
    destruct (in_projected w df df1 p Hproj Hp) as (Hr & x & y & Hxy & _ & Hx & Hy).
    repeat split; try assumption. exists x, y. split; [exact Hxy |].
    unfold pixel_key. rewrite Hx, Hy. reflexivity.
  - intros r x y Hr Hxy Ht Hb.
    set (q := mkPRow r (Fin x, Fin y) (py_round x) (py_round y)) in *.
    assert (position_of w r = (Fin x, Fin y)) as Hpos.
    { unfold position_of, try_radec2pix. rewrite Hxy. reflexivity. }
    assert (In q df1) as Hq.
    { unfold df1. apply in_map_iff. exists (r, (Fin x, Fin y)). split; [reflexivity |].
      apply filter_In. split; [| reflexivity].
      apply in_map_iff. exists r. rewrite Hpos. auto. }
    destruct (drop_duplicates_keeps_key
                (of_selected_type catalogs (in_bounds W H df1)) q) as (p & Hp & Hk).
    { unfold of_selected_type, in_bounds. apply filter_In. split; [| exact Ht].
      apply filter_In. split; [exact Hq | exact Hb]. }
    exists p. split; [exact Hp | exact Hk].
Qed.

Lemma working_set_sound_and_complete_witness :
  exists dfi,
    working_set (flat_world 100 test_files) 1000 1000 (interface_catalogs false) test_rows
    = Ok dfi
    /\ NoDup (map pixel_key dfi)
    /\ (forall p, In p dfi ->
          In (row p) test_rows
          /\ in_strs (TYPE (row p)) (filter_types (interface_catalogs false)) = true
          /\ bounds_ok 1000 1000 (min_patch_size 1000 1000) p = true
          /\ exists x y,
               radec2pix (flat_world 100 test_files) (ra (row p)) (dec (row p))
               = Ok (Fin x, Fin y)
               /\ pixel_key p = (py_round x, py_round y))
    /\ (forall r x y,
          In r test_rows ->
          radec2pix (flat_world 100 test_files) (ra r) (dec r) = Ok (Fin x, Fin y) ->
          in_strs (TYPE r) (filter_types (interface_catalogs false)) = true ->
          bounds_ok 1000 1000 (min_patch_size 1000 1000)
                    (mkPRow r (Fin x, Fin y) (py_round x) (py_round y))
          = true ->
          exists p, In p dfi /\ pixel_key p = (py_round x, py_round y)).
Proof.
  apply (working_set_sound_and_complete (flat_world 100 test_files) 1000 1000
           (interface_catalogs false) test_rows).
  discriminate.
Defined.

Lemma unprojected_error (w : World) (r : Row) :
  if unprojected w r
  then exists msg, error_of w r = [(main_id r, ra r, dec r, msg)]
  else error_of w r = [].
Proof.
  unfold unprojected, finite_position, position_of, error_of, try_radec2pix.
  cbn [fst snd].
  destruct (radec2pix w (ra r) (dec r)) as [[x y] | msg]; cbn [bind fst snd].
  - destruct x, y; cbn; eauto.
  - cbn. eauto.
Qed.

(** X7: on a frame with a row the projection keeps the rows it can
    project, in order, and records the others, in order, with identifier
    and position: every row is kept or recorded, never both. *)
Theorem projection_accounts_for_every_row (w : World) (df : list Row) :
  df <> [] ->
  exists df1,
    projected w df = Ok df1
    /\ map row df1 = filter (fun r => negb (unprojected w r)) df
    /\ map (fun e => (fst (fst (fst e)), snd (fst (fst e)), snd (fst e)))
           (projection_errors w df)
       = map (fun r => (main_id r, ra r, dec r)) (filter (unprojected w) df)
    /\ (List.length df1 + List.length (projection_errors w df))%nat = List.length df
    /\ (forall r, unprojected w r = true <-> projection_fails w r).
Proof.
  intros Hne. eexists. split; [apply (projected_spec w df Hne) |]. clear Hne.
  assert (forall r, unprojected w r = true <-> projection_fails w r) as Hfail.
  { intros r. split.
    - unfold unprojected, finite_position, position_of, try_radec2pix, projection_fails.
      cbn [fst snd].
      destruct (radec2pix w (ra r) (dec r)) as [[x y] | msg]; cbn [bind fst snd].
      + intros Hu. right. exists x, y. split; [reflexivity |].
        destruct x, y; cbn in *; try reflexivity; discriminate Hu.
      + intros _. left. eauto.
    - intros Hf. destruct (projection_fails_position w r Hf) as [Hp _].
      unfold unprojected. rewrite Hp. reflexivity. }
  unfold projection_errors. rewrite apply_safe_radec2pix_spec. cbn [snd app].
  assert (map row
              (map with_pixel_columns
                   (filter finite_position (map (fun r => (r, position_of w r)) df)))
          = filter (fun r => negb (unprojected w r)) df) as E1.
  { clear Hfail. induction df as [| r df IH]; [reflexivity |]. cbn [map filter].
    unfold unprojected at 1. rewrite negb_involutive.
    destruct (finite_position (r, position_of w r)); cbn [map with_pixel_columns row fst];
      [f_equal |]; exact IH. }
  assert (map (fun e : wcs_error => (fst (fst (fst e)), snd (fst (fst e)), snd (fst e)))
              (flat_map (error_of w) df)
          = map (fun r => (main_id r, ra r, dec r)) (filter (unprojected w) df)) as E2.
  { clear E1 Hfail. induction df as [| r df IH]; [reflexivity |]. cbn [flat_map filter].
    rewrite map_app, IH. pose proof (unprojected_error w r) as He.
    destruct (unprojected w r).
    - destruct He as [msg ->]. reflexivity.
    - rewrite He. reflexivity. }
  split; [exact E1 |]. split; [exact E2 |]. split; [| exact Hfail].
  clear Hfail.
  rewrite <- (length_map row), E1.
  rewrite <- (length_map (fun e : wcs_error =>
                            (fst (fst (fst e)), snd (fst (fst e)), snd (fst e)))), E2.
  rewrite length_map.
  clear E1 E2. induction df as [| r df IH]; [reflexivity |]. cbn [filter].
  destruct (unprojected w r); cbn [negb List.length]; lia.
Qed.

Lemma projection_accounts_for_every_row_witness :
  exists df1,
    projected (flat_world 100 test_files) test_rows = Ok df1
    /\ map row df1
       = filter (fun r => negb (unprojected (flat_world 100 test_files) r)) test_rows
    /\ map (fun e => (fst (fst (fst e)), snd (fst (fst e)), snd (fst e)))
           (projection_errors (flat_world 100 test_files) test_rows)
       = map (fun r => (main_id r, ra r, dec r))
             (filter (unprojected (flat_world 100 test_files)) test_rows)
    /\ (List.length df1
        + List.length (projection_errors (flat_world 100 test_files) test_rows))%nat
       = List.length test_rows
    /\ (forall r, unprojected (flat_world 100 test_files) r = true
                  <-> projection_fails (flat_world 100 test_files) r).
Proof.
  apply (projection_accounts_for_every_row (flat_world 100 test_files) test_rows).
  discriminate.
Defined.

(** ** The catalog sources *)

Lemma load_builtin_catalog_type (w : World) (filepath catalog_type : string) (r : Row) :
  In r (load_builtin_catalog w filepath catalog_type) -> TYPE r = catalog_type.
Proof.
  unfold load_builtin_catalog.
  destruct (path_exists w filepath); [| intros []]. cbn [negb].
  destruct (read_csv w filepath) as [df | msg]; [| intros []].
  destruct (forallb _ _); [| intros []]. cbn [negb].
  intros Hin. apply in_map_iff in Hin as [rec [<- _]]. reflexivity.
Qed.

(** X8: [load_builtin_catalog] gives no row when the file is missing,
    unreadable or lacks one of the columns name, ra, dec; each row it
    gives has the catalog code as type and comes from a record whose ra
    and dec cells are present, with a NaN size when the file has no
    diameter column. *)
Theorem load_builtin_catalog_rows (w : World) (filepath catalog_type : string) :
  (path_exists w filepath = false -> load_builtin_catalog w filepath catalog_type = [])
  /\ (forall msg, read_csv w filepath = Raise msg ->
                  load_builtin_catalog w filepath catalog_type = [])
  /\ (forall df c, read_csv w filepath = Ok df ->
                   In c [ "name"%string; "ra"%string; "dec"%string ] ->
                   in_strs c (csv_columns df) = false ->
                   load_builtin_catalog w filepath catalog_type = [])
  /\ (forall r, In r (load_builtin_catalog w filepath catalog_type) ->
                TYPE r = catalog_type
                /\ exists df rec,
                     read_csv w filepath = Ok df /\ In rec (csv_records df)
                     /\ isna (csv_ra rec) = false /\ isna (csv_dec rec) = false
                     /\ main_id r = astype_str w (csv_name rec)
                     /\ ra r = to_numeric w (csv_ra rec)
                     /\ dec r = to_numeric w (csv_dec rec)
                     /\ (in_strs "diameter" (csv_columns df) = false ->
                         galdim_majaxis r = NaN)).
Proof.
  unfold load_builtin_catalog. split; [| split; [| split]].
  - intros ->. reflexivity.
  - intros msg ->. destruct (path_exists w filepath); reflexivity.
  - intros df c -> Hc Hmiss. destruct (path_exists w filepath); [| reflexivity]. cbn [negb].
    assert (forallb (fun c0 => in_strs c0 (csv_columns df))
                    [ "name"%string; "ra"%string; "dec"%string ] = false) as ->.
    { destruct (forallb _ _) eqn:E; [| reflexivity].
      rewrite forallb_forall in E. rewrite (E c Hc) in Hmiss. discriminate Hmiss. }
    reflexivity.
  - intros r. destruct (path_exists w filepath); [| intros []]. cbn [negb].
    destruct (read_csv w filepath) as [df | msg]; [| intros []].
    destruct (forallb _ _); [| intros []]. cbn [negb].
    intros Hin. apply in_map_iff in Hin as [rec [<- Hrec]].
    apply filter_In in Hrec as [Hrec Hna]. apply andb_prop in Hna as [Hra Hdec].
    apply negb_true_iff in Hra, Hdec.
    split; [reflexivity |]. exists df, rec. cbn.
    repeat split; try assumption. intros ->. reflexivity.
Qed.

Lemma lookup_In (key : string) (c : Catalogs) (e : CatalogEntry) :
  lookup key c = Some e -> In (key, e) c.
Proof.
  induction c as [| [k e'] c IH]; cbn; [discriminate |].
  destruct (key =? k)%string eqn:E.
  - intros H. injection H as ->. apply String.eqb_eq in E. subst k. left. reflexivity.
  - intros H. right. apply IH. exact H.
Qed.

Lemma selected_in_filter_types (catalogs : Catalogs) (key : string) :
  selected catalogs key = true -> in_strs key (filter_types catalogs) = true.
Proof.
  unfold selected. destruct (lookup key catalogs) as [e |] eqn:E; [| discriminate].
  intros Hs. apply lookup_In in E.
  unfold in_strs. apply existsb_exists. exists key. split; [| apply String.eqb_refl].
  unfold filter_types, keys. apply in_map_iff. exists (key, e). split; [reflexivity |].
  apply filter_In. split; [exact E | exact Hs].
Qed.

(** X9: a row of a built-in catalog that was loaded has type M, NGC or
    IC, its catalog is selected, and the type filter keeps it. *)
Theorem local_rows_pass_the_type_filter (w : World) (catalogs : Catalogs)
        (frame : list Row) (r : Row) :
  In frame (local_frames w catalogs) -> In r frame ->
  In (TYPE r) [ "M"%string; "NGC"%string; "IC"%string ]
  /\ selected catalogs (TYPE r) = true
  /\ in_strs (TYPE r) (filter_types catalogs) = true.
Proof.
  unfold local_frames. intros Hf Hr.
  apply in_map_iff in Hf as [[key file] [<- Hkf]]. cbn [fst snd] in Hr.
  apply filter_In in Hkf as [Hkf Hsel]. cbn [fst] in Hsel.
  rewrite (load_builtin_catalog_type w file key r Hr).
  split; [| split; [exact Hsel | apply selected_in_filter_types; exact Hsel]].
  unfold catalog_files in Hkf. cbn in Hkf.
  destruct Hkf as [E | [E | [E | []]]]; injection E as <- _; cbn; auto.
Qed.

Lemma leading_alnum_chars (s : string) :
  has_char (fun c => negb (is_alnum c)) (leading_alnum s) = false.
Proof.
  induction s as [| c s IH]; [reflexivity |]. cbn.
  destruct (is_alnum c) eqn:E; [| reflexivity]. cbn. rewrite E, IH. reflexivity.
Qed.

Lemma leading_alnum_prefix (s : string) : String.prefix (leading_alnum s) s = true.
Proof.
  induction s as [| c s IH]; [reflexivity |]. cbn.
  destruct (is_alnum c); [| reflexivity]. cbn.
  destruct (ascii_dec c c) as [_ | N]; [exact IH | exfalso; apply N; reflexivity].
Qed.

Lemma derive_type_shape (id : string) :
  derive_type id <> EmptyString
  /\ has_char (fun c => negb (is_alnum c)) (derive_type id) = false
  /\ (derive_type id = "Unknown"%string \/ String.prefix (derive_type id) id = true).
Proof.
  unfold derive_type. pose proof (leading_alnum_chars id) as Hc.
  pose proof (leading_alnum_prefix id) as Hp.
  destruct (leading_alnum id) as [| c t].
  - split; [discriminate |]. split; [reflexivity | left; reflexivity].
  - split; [discriminate |]. split; [exact Hc | right; exact Hp].
Qed.

(** X10: a row of the Simbad frame is typed by the leading letters and
    digits of its identifier ([Unknown] when there are none), and its
    type is never M, NGC or IC. *)
Theorem simbad_frame_rows (w : World) (W H : Z) (rows : list Row) (r : Row) :
  simbad_frame w W H = Ok rows -> In r rows ->
  TYPE r = derive_type (main_id r)
  /\ ~ In (TYPE r) [ "M"%string; "NGC"%string; "IC"%string ]
  /\ TYPE r <> EmptyString
  /\ has_char (fun c => negb (is_alnum c)) (TYPE r) = false
  /\ (TYPE r = "Unknown"%string \/ String.prefix (TYPE r) (main_id r) = true)
  /\ exists result_table s,
       query_region w (pix2radec w (IZR W / 2) (IZR H / 2)) (radius_deg w W H)
                    (minsize_arcmin w) = Ok result_table
       /\ In s result_table
       /\ r = mkRow (s_main_id s) (s_ra s) (s_dec s) (derive_type (s_main_id s))
                    (s_galdim_majaxis s).
Proof.
  unfold simbad_frame.
  destruct (query_region w _ _ _) as [result_table | msg]; cbn [bind]; [| discriminate].
  intros E Hr. injection E as <-.
  apply filter_In in Hr as [Hr Hex]. apply in_map_iff in Hr as [s [<- Hs]].
  cbn [TYPE main_id] in *.
  destruct (derive_type_shape (s_main_id s)) as (Hne & Hch & Hpre).
  split; [reflexivity |]. split.
  - intros Hin. apply negb_true_iff in Hex.
    assert (in_strs (derive_type (s_main_id s)) (map fst catalog_files) = true) as C.
    { unfold in_strs. apply existsb_exists. exists (derive_type (s_main_id s)).
      split; [exact Hin | apply String.eqb_refl]. }
    change (in_strs (derive_type (s_main_id s)) (map fst catalog_files) = false) in Hex.
    rewrite C in Hex. discriminate Hex.
  - repeat split; try assumption. exists result_table, s. auto.
Qed.

Lemma test_simbad_frame :
  simbad_frame (simbad_world 100 no_files) 1000 1000
  = Ok [ mkRow "UGC 394" (Fin 6) (Fin 5) "UGC" (Fin 2);
         mkRow "[VV2006] J1" (Fin 6) (Fin 6) "Unknown" NaN ].
Proof. reflexivity. Qed.

Lemma simbad_frame_rows_witness :
  let r := mkRow "UGC 394" (Fin 6) (Fin 5) "UGC" (Fin 2) in
  TYPE r = derive_type (main_id r)
  /\ ~ In (TYPE r) [ "M"%string; "NGC"%string; "IC"%string ]
  /\ TYPE r <> EmptyString
  /\ has_char (fun c => negb (is_alnum c)) (TYPE r) = false
  /\ (TYPE r = "Unknown"%string \/ String.prefix (TYPE r) (main_id r) = true)
  /\ exists result_table s,
       query_region (simbad_world 100 no_files)
                    (pix2radec (simbad_world 100 no_files) (IZR 1000 / 2) (IZR 1000 / 2))
                    (radius_deg (simbad_world 100 no_files) 1000 1000)
                    (minsize_arcmin (simbad_world 100 no_files)) = Ok result_table
       /\ In s result_table
       /\ r = mkRow (s_main_id s) (s_ra s) (s_dec s) (derive_type (s_main_id s))
                    (s_galdim_majaxis s).
Proof.
  apply (simbad_frame_rows (simbad_world 100 no_files) 1000 1000
           [ mkRow "UGC 394" (Fin 6) (Fin 5) "UGC" (Fin 2);
             mkRow "[VV2006] J1" (Fin 6) (Fin 6) "Unknown" NaN ]).
  - reflexivity.
  - left. reflexivity.
Defined.

Lemma local_rows_pass_the_type_filter_witness :
  let r := mkRow "M 1" (Fin 5) (Fin 5) "M" NaN in
  In (TYPE r) [ "M"%string; "NGC"%string; "IC"%string ]
  /\ selected (interface_catalogs false) (TYPE r) = true
  /\ in_strs (TYPE r) (filter_types (interface_catalogs false)) = true.
Proof.
  apply (local_rows_pass_the_type_filter (flat_world 100 test_files)
           (interface_catalogs false) test_rows).
  - left. reflexivity.
  - left. reflexivity.
Defined.

(** ** Runs that load nothing *)

Lemma load_frames_query_failure (w : World) (W H : Z) (catalogs : Catalogs)
      (msg : string) :
  simbad_catalogs catalogs <> [] ->
  query_region w (pix2radec w (IZR W / 2) (IZR H / 2)) (radius_deg w W H)
               (minsize_arcmin w) = Raise msg ->
  load_frames w W H catalogs = Raise msg.
Proof.
  intros Hs Hq. unfold load_frames.
  destruct (simbad_catalogs catalogs) as [| k ks]; [contradiction |].
  unfold simbad_frame. rewrite Hq. reflexivity.
Qed.

(** X11: when a catalog other than M, NGC and IC is selected and the
    Simbad query raises, [annotate_fit] raises with it: the rows of the
    built-in catalogs that were loaded before are not annotated either. *)
Theorem simbad_failure_aborts_the_run (w : World) (W H : Z) (catalogs : Catalogs)
        (title logo_path overlay_type msg : string) :
  simbad_catalogs catalogs <> [] ->
  query_region w (pix2radec w (IZR W / 2) (IZR H / 2)) (radius_deg w W H)
               (minsize_arcmin w) = Raise msg ->
  load_frames w W H catalogs = Raise msg
  /\ annotate_fit w W H catalogs title logo_path overlay_type = Raise msg.
Proof.
  intros Hs Hq.
  pose proof (load_frames_query_failure w W H catalogs msg Hs Hq) as Hl.
  split; [exact Hl |]. unfold annotate_fit. rewrite Hl. reflexivity.
Qed.

Lemma simbad_failure_aborts_the_run_witness :
  load_frames (offline_world 100 test_files) 1000 1000
              (select_all (create_widgets registry)) = Raise "Read timed out."
  /\ annotate_fit (offline_world 100 test_files) 1000 1000
                  (select_all (create_widgets registry))
                  "Andromeda" "" "circles" = Raise "Read timed out.".
Proof.
  apply (simbad_failure_aborts_the_run (offline_world 100 test_files) 1000 1000
           (select_all (create_widgets registry)) "Andromeda" "" "circles"
           "Read timed out.").
  - discriminate.
  - reflexivity.
Defined.

Lemma nothing_selected (catalogs : Catalogs) (key : string) :
  filter_types catalogs = [] -> selected catalogs key = false.
Proof.
  intros Hf. unfold selected. destruct (lookup key catalogs) as [e |] eqn:E; [| reflexivity].
  apply lookup_In in E. destruct (get_selected e) eqn:Hs; [| reflexivity].
  assert (In key (filter_types catalogs)) as Hin.
  { unfold filter_types, keys. apply in_map_iff. exists (key, e). split; [reflexivity |].
    apply filter_In. split; [exact E | exact Hs]. }
  rewrite Hf in Hin. destruct Hin.
Qed.

(** X12: with no catalog selected [annotate_fit] returns 0 at the first
    early return, in every world. *)
Theorem no_selection_returns_zero (w : World) (W H : Z) (catalogs : Catalogs)
        (title logo_path overlay_type : string) :
  filter_types catalogs = [] ->
  annotate_fit w W H catalogs title logo_path overlay_type
  = Ok (0%Z, [EvPrint "No catalog data loaded."]).
Proof.
  intros Hf. unfold annotate_fit, load_frames.
  assert (local_frames w catalogs = []) as ->.
  { unfold local_frames.
    assert (filter (fun kf => selected catalogs (fst kf)) catalog_files = []) as ->;
      [| reflexivity].
    induction catalog_files as [| kf l IH]; [reflexivity |]. cbn [filter].
    rewrite (nothing_selected catalogs (fst kf) Hf). exact IH. }
  assert (simbad_catalogs catalogs = []) as ->; [| reflexivity].
  unfold simbad_catalogs.
  induction (keys catalogs) as [| k l IH]; [reflexivity |]. cbn [filter].
  rewrite (nothing_selected catalogs k Hf), andb_false_r. exact IH.
Qed.

Lemma no_selection_returns_zero_witness :
  annotate_fit (offline_world 100 test_files) 1000 1000 (select_none (create_widgets registry))
               "Andromeda" "" "circles"
  = Ok (0%Z, [EvPrint "No catalog data loaded."]).
Proof.
  apply (no_selection_returns_zero (offline_world 100 test_files) 1000 1000
           (select_none (create_widgets registry)) "Andromeda" "" "circles").
  reflexivity.
Defined.

(** ** The order of the annotations *)

Lemma insert_sorted_perm (leb : PRow -> PRow -> bool) (p : PRow) (l : list PRow) :
  Permutation (insert_sorted leb p l) (p :: l).
Proof.
  induction l as [| q l IH]; cbn; [apply Permutation_refl |].
  destruct (leb p q); [apply Permutation_refl |].
  apply perm_trans with (q :: p :: l); [apply perm_skip; exact IH | apply perm_swap].
Qed.

Lemma insert_sorted_sorted (leb : PRow -> PRow -> bool) (p : PRow) (l : list PRow) :
  (forall a b, leb a b = true \/ leb b a = true) ->
  Sorted (fun a b => leb a b = true) l ->
  Sorted (fun a b => leb a b = true) (insert_sorted leb p l).
Proof.
  intros Htot Hs. induction l as [| q l IH]; cbn.
  - constructor; constructor.
  - destruct (leb p q) eqn:E.
    + constructor; [exact Hs | constructor; exact E].
    + inversion Hs as [| ? ? Hs' Hhd]; subst. constructor; [apply IH; exact Hs' |].
      assert (leb q p = true) as Hqp by (destruct (Htot p q); congruence).
      destruct l as [| q' l]; cbn.
      * constructor. exact Hqp.
      * destruct (leb p q'); constructor; [exact Hqp | inversion Hhd; assumption].
Qed.

Lemma sort_leb_total (catalogs : Catalogs) (a b : PRow) :
  sort_leb catalogs a b = true \/ sort_leb catalogs b a = true.
Proof.
  unfold sort_leb.
  rewrite (String.compare_antisym (sorting catalogs a) (sorting catalogs b)).
  destruct (String.compare (sorting catalogs b) (sorting catalogs a)); cbn; auto.
  apply String.leb_total.
Qed.

Lemma string_compare_lt_trans (a b c : string) :
  String.compare a b = Lt -> String.compare b c = Lt -> String.compare a c = Lt.
Proof.
  revert b c. induction a as [| x a IH]; intros [| y b] [| z c]; cbn;
    try discriminate; try reflexivity.
  unfold Ascii.compare.
  destruct (N.compare (N_of_ascii x) (N_of_ascii y)) eqn:Exy; try discriminate;
    destruct (N.compare (N_of_ascii y) (N_of_ascii z)) eqn:Eyz; try discriminate;
    intros Hab Hbc.
  - apply N.compare_eq_iff in Exy, Eyz. rewrite Exy, Eyz, N.compare_refl.
    apply (IH b c Hab Hbc).
  - apply N.compare_eq_iff in Exy. rewrite Exy, Eyz. reflexivity.
  - apply N.compare_eq_iff in Eyz. rewrite <- Eyz, Exy. reflexivity.
  - apply N.compare_lt_iff in Exy, Eyz.
    assert (N.compare (N_of_ascii x) (N_of_ascii z) = Lt) as ->
        by (apply N.compare_lt_iff; eapply N.lt_trans; eassumption).
    reflexivity.
Qed.

Lemma string_leb_trans (a b c : string) :
  String.leb a b = true -> String.leb b c = true -> String.leb a c = true.
Proof.
  unfold String.leb.
  destruct (String.compare a b) eqn:Eab; try discriminate;
    destruct (String.compare b c) eqn:Ebc; try discriminate; intros _ _.
  - apply String.compare_eq_iff in Eab. subst b. rewrite Ebc. reflexivity.
  - apply String.compare_eq_iff in Eab. subst b. rewrite Ebc. reflexivity.
  - apply String.compare_eq_iff in Ebc. subst c. rewrite Eab. reflexivity.
  - rewrite (string_compare_lt_trans a b c Eab Ebc). reflexivity.
Qed.

Lemma sort_leb_trans (catalogs : Catalogs) (a b c : PRow) :
  sort_leb catalogs a b = true -> sort_leb catalogs b c = true ->
  sort_leb catalogs a c = true.
Proof.
  unfold sort_leb.
  destruct (String.compare (sorting catalogs a) (sorting catalogs b)) eqn:Eab;
    try discriminate;
    destruct (String.compare (sorting catalogs b) (sorting catalogs c)) eqn:Ebc;
    try discriminate; intros Hab Hbc.
  - apply String.compare_eq_iff in Eab. rewrite Eab, Ebc.
    apply (string_leb_trans _ _ _ Hab Hbc).
  - apply String.compare_eq_iff in Eab. rewrite Eab, Ebc. reflexivity.
  - apply String.compare_eq_iff in Ebc. rewrite <- Ebc, Eab. reflexivity.
  - rewrite (string_compare_lt_trans _ _ _ Eab Ebc). reflexivity.
Qed.

(** X13: the rows are annotated in ascending order of
    [(sorting, main_id)]: the ordered frame is a permutation of the
    working set with the spaces taken out of the identifiers, and each of
    its rows is below all the rows after it. *)
Theorem ordered_is_a_sorted_permutation (catalogs : Catalogs) (dfi : list PRow) :
  Permutation (ordered catalogs dfi) (map strip_id dfi)
  /\ StronglySorted (fun a b => sort_leb catalogs a b = true) (ordered catalogs dfi)
  /\ List.length (ordered catalogs dfi) = List.length dfi
  /\ (forall p, In p (ordered catalogs dfi) ->
                has_char (fun c => Ascii.eqb c " ") (main_id (row p)) = false).
Proof.
  assert (Permutation (ordered catalogs dfi) (map strip_id dfi)) as Hperm.
  { unfold ordered, sort_values.
    induction (map strip_id dfi) as [| p l IH]; cbn; [constructor |].
    apply perm_trans with (p :: fold_right (insert_sorted (sort_leb catalogs)) [] l);
      [apply insert_sorted_perm | apply perm_skip; exact IH]. }
  split; [exact Hperm |]. split; [| split].
  - clear Hperm. apply Sorted_StronglySorted.
    { intros a b c. apply sort_leb_trans. }
    unfold ordered, sort_values.
    induction (map strip_id dfi) as [| p l IH]; cbn; [constructor |].
    apply insert_sorted_sorted; [apply sort_leb_total | exact IH].
  - apply ordered_length.
  - intros p Hp. apply (Permutation_in _ Hperm) in Hp.
    apply in_map_iff in Hp as [q [<- _]]. cbn.
    induction (main_id (row q)) as [| c s IH]; [reflexivity |]. cbn.
    destruct (Ascii.eqb c " ") eqn:E; [exact IH |]. cbn. rewrite E. exact IH.
Qed.

Lemma sort_keys_under_100 : sort_keys_checked 100 = true.
Proof. vm_compute. reflexivity. Qed.

Lemma fmt_02d_order (i j : nat) :
  (i < 100)%nat -> (j < 100)%nat ->
  String.compare (fmt_02d i) (fmt_02d j) = Nat.compare i j.
Proof.
  intros Hi Hj. pose proof sort_keys_under_100 as H. unfold sort_keys_checked in H.
  rewrite forallb_forall in H. specialize (H i ltac:(apply in_seq; lia)).
  rewrite forallb_forall in H. specialize (H j ltac:(apply in_seq; lia)).
  destruct (String.compare (fmt_02d i) (fmt_02d j)); symmetry.
  - apply Nat.eqb_eq in H. apply Nat.compare_eq_iff. exact H.
  - apply Nat.ltb_lt in H. apply Nat.compare_lt_iff. exact H.
  - apply Nat.ltb_lt in H. apply Nat.compare_gt_iff. exact H.
Qed.

(** X14: for catalogs at positions below 100 of the registry the order
    of the sort keys is the order of the positions: a row of an earlier
    catalog comes first, and rows of one catalog are ordered by
    identifier. *)
Theorem rows_sort_by_registry_position (catalogs : Catalogs) (a b : PRow) (i j : nat) :
  index_of (TYPE (row a)) (keys catalogs) 0 = Some i ->
  index_of (TYPE (row b)) (keys catalogs) 0 = Some j ->
  (i < 100)%nat -> (j < 100)%nat ->
  sort_leb catalogs a b
  = match Nat.compare i j with
    | Lt => true
    | Gt => false
    | Eq => String.leb (main_id (row a)) (main_id (row b))
    end.
Proof.
  intros Ha Hb Hi Hj. unfold sort_leb, sorting. rewrite Ha, Hb.
  rewrite (fmt_02d_order i j Hi Hj). reflexivity.
Qed.

Lemma rows_sort_by_registry_position_witness :
  let a := mkPRow (mkRow "NGC1" (Fin 5) (Fin 5) "NGC" NaN) (Fin 1, Fin 1) 1 1 in
  let b := mkPRow (mkRow "IC1" (Fin 5) (Fin 5) "IC" NaN) (Fin 1, Fin 1) 1 1 in
  sort_leb registry a b
  = match Nat.compare 2 1 with
    | Lt => true
    | Gt => false
    | Eq => String.leb (main_id (row a)) (main_id (row b))
    end.
Proof.
  apply (rows_sort_by_registry_position registry
           (mkPRow (mkRow "NGC1" (Fin 5) (Fin 5) "NGC" NaN) (Fin 1, Fin 1) 1 1)
           (mkPRow (mkRow "IC1" (Fin 5) (Fin 5) "IC" NaN) (Fin 1, Fin 1) 1 1) 2 1);
    reflexivity || lia.
Defined.

(** ** Patches and thumbnail boxes *)

Lemma int_round_doubled (x : pyfloat) (z : Z) :
  int_round (fmul x size_factor) = Ok z ->
  exists d, x = Fin d /\ z = py_round (d * 2).
Proof.
  unfold size_factor. destruct x as [d | | |]; cbn.
  - intros E. injection E as <-. eauto.
  - unfold scale_inf. destruct (Req_dec_T 2 0) as [C | _]; [lra |].
    destruct (Rlt_dec 0 2) as [_ | C]; [discriminate | lra].
  - unfold scale_inf. destruct (Req_dec_T 2 0) as [C | _]; [lra |].
    destruct (Rlt_dec 0 2) as [_ | C]; [discriminate | lra].
  - discriminate.
Qed.

Lemma estimate_patch_shape (w : World) (m : Z) (r : Row) :
  exists ps d logs,
    estimate_patch w m r = ((ps, Fin d), logs)
    /\ (ps = m /\ d = IZR m \/ ps = Z.max m (py_round (d * 2)))
    /\ forallb (fun e => negb (is_render e)) logs = true.
Proof.
  unfold estimate_patch.
  destruct (fis_zero (angular_size_of r)).
  { exists m, (IZR m), []. auto. }
  destruct (wcs_patch_size w m r (angular_size_of r)) as [[ps x] | msg] eqn:E.
  - unfold wcs_patch_size in E.
    repeat match type of E with
           | bind ?c _ = _ => destruct c eqn:?; cbn [bind] in E; [| discriminate E]
           end.
    injection E as <- <-.
    match goal with
    | H : int_round _ = Ok _ |- _ => apply int_round_doubled in H as (d & Hd & ->)
    end.
    rewrite Hd. exists (Z.max m (py_round (d * 2))), d, []. auto.
  - exists m, (IZR m). eexists. split; [reflexivity |]. split; [auto | reflexivity].
Qed.

Lemma patch_size_at_least (w : World) (catalogs : Catalogs) (title : string)
      (m : Z) (r : Row) :
  (m <= patch_size_of w catalogs title m r)%Z.
Proof.
  unfold patch_size_of. rewrite patch_of_row_size.
  destruct (leda_override title r); [cbn; lia |].
  apply estimate_patch_at_least.
Qed.

(** X15: whatever the projector and [SkyCoord] do, the patch size of a
    row is at least [min_patch_size] and its diameter in pixels is a
    finite number; the patch size is the minimum, or
    [max(min_patch_size, round(2 * diameter))]. *)
Theorem patch_size_floor_and_finite_diameter (w : World) (catalogs : Catalogs)
        (title : string) (m : Z) (r : Row) :
  (m <= patch_size_of w catalogs title m r)%Z
  /\ exists d,
       patch_diameter_of w catalogs title m r = Fin d
       /\ (patch_size_of w catalogs title m r = m /\ d = IZR m
           \/ patch_size_of w catalogs title m r = Z.max m (py_round (d * 2))).
Proof.
  unfold patch_size_of, patch_diameter_of. rewrite patch_of_row_size.
  destruct (leda_override title r).
  - cbn. split; [lia |]. exists (IZR m). auto.
  - destruct (estimate_patch_shape w m r) as (ps & d & logs & E & Hps & _).
    rewrite E. cbn. split; [destruct Hps as [[-> _] | ->]; lia |].
    exists d. auto.
Qed.

Lemma min_patch_size_nonneg (W H : Z) :
  (0 <= Z.max W H)%Z -> (0 <= min_patch_size W H)%Z.
Proof.
  intros Hn. rewrite min_patch_size_on_integers. unfold round_div.
  assert (0 <= Z.max W H / 100)%Z by (apply Z.div_pos; lia).
  repeat match goal with |- context [if ?b then _ else _] => destruct b end; lia.
Qed.

Lemma annotate_row_annotation (w : World) (W H : Z) (catalogs : Catalogs)
      (main_object : string) (shape : Shape) (i : nat) (p : PRow) :
  exists logs text fontsize color1,
    annotate_row w W H catalogs main_object shape i p
    = logs ++
      [EvAnnotate shape
         {| a_text := text; a_main_id := main_id (row p); a_px := px p; a_py := py p;
            a_fontsize := fontsize; a_color := color1;
            a_patch_size := patch_size_of w catalogs main_object (min_patch_size W H) (row p);
            a_patch_diameter_pix :=
              patch_diameter_of w catalogs main_object (min_patch_size W H) (row p);
            a_box :=
              let clipped :=
                clip W H p (patch_size_of w catalogs main_object (min_patch_size W H) (row p))
              in
              (px p - clipped / 2, px p + clipped / 2,
               H - py p - clipped / 2, H - py p + clipped / 2)%Z |}]
    /\ forallb (fun e => negb (is_render e)) logs = true.
Proof.
  unfold annotate_row, patch_size_of, patch_diameter_of.
  assert (forallb (fun e => negb (is_render e))
                  (snd (patch_of_row w catalogs main_object (min_patch_size W H) (row p)))
          = true) as Hlogs.
  { unfold patch_of_row.
    destruct (estimate_patch_shape w (min_patch_size W H) (row p))
      as (ps & d & logs & E & _ & Hl).
    rewrite E. exact Hl. }
  destruct (patch_of_row w catalogs main_object (min_patch_size W H) (row p))
    as [[[fontsize color1] [ps d]] logs].
  cbn [fst snd] in *. do 4 eexists. split; [reflexivity | exact Hlogs].
Qed.

(** X16: the thumbnail box of a row inside the margins lies inside the
    image, is a square centred on the row, and is not larger than the
    patch size. *)
Theorem thumbnail_box_inside_image (w : World) (W H : Z) (catalogs : Catalogs)
        (title : string) (shape s : Shape) (i : nat) (p : PRow) (a : Annotation) :
  (0 < W)%Z -> (0 < H)%Z ->
  bounds_ok W H (min_patch_size W H) p = true ->
  In (EvAnnotate s a) (annotate_row w W H catalogs title shape i p) ->
  let '(x1, x2, y1, y2) := a_box a in
  (0 <= x1 <= x2)%Z /\ (x2 <= W)%Z /\ (0 <= y1 <= y2)%Z /\ (y2 <= H)%Z
  /\ (x2 - x1 = y2 - y1)%Z
  /\ (x1 + x2 = 2 * px p)%Z /\ (y1 + y2 = 2 * (H - py p))%Z
  /\ (x2 - x1 <= a_patch_size a)%Z
  /\ (min_patch_size W H - 1 <= x2 - x1)%Z.
Proof.
  intros HW HH Hb Hin.
  destruct (annotate_row_annotation w W H catalogs title shape i p)
    as (logs & text & fontsize & color1 & E & Hlogs).
  rewrite E in Hin. apply in_app_or in Hin as [Hin | [Hin | []]].
  { rewrite forallb_forall in Hlogs. specialize (Hlogs _ Hin). discriminate Hlogs. }
  injection Hin as _ <-. cbn [a_box a_patch_size].
  pose proof (patch_size_at_least w catalogs title (min_patch_size W H) (row p))
    as Hfloor.
  pose proof (min_patch_size_nonneg W H ltac:(lia)) as Hm.
  set (ps := patch_size_of w catalogs title (min_patch_size W H) (row p)) in *.
  set (m := min_patch_size W H) in *.
  unfold bounds_ok in Hb.
  apply andb_prop in Hb as [Hb Hy2]. apply andb_prop in Hb as [Hb Hx2].
  apply andb_prop in Hb as [Hx1 Hy1].
  apply Z.ltb_lt in Hx1, Hy1, Hx2, Hy2.
  unfold clip. set (c := Z.min _ _).
  assert (m <= c <= ps)%Z as Hc by (subst c; lia).
  assert (c <= 2 * px p /\ c <= 2 * py p /\ c <= 2 * (W - px p) /\ c <= 2 * (H - py p))%Z
    as (C1 & C2 & C3 & C4) by (subst c; lia).
  pose proof (Z.div_mod c 2 ltac:(lia)) as Hdm.
  pose proof (Z.mod_pos_bound c 2 ltac:(lia)) as Hr.
  repeat split; lia.
Qed.

Lemma test_annotate_row :
  annotate_row (flat_world 100 test_files) 1000 1000 (interface_catalogs false)
               "Andromeda" Boxes 0
               (mkPRow (mkRow "M1" (Fin 5) (Fin 5) "M" NaN) (Fin (100 * 5), Fin (100 * 5)) 500 500)
  = [ EvAnnotate Boxes
        {| a_text := "1"; a_main_id := "M1"; a_px := 500; a_py := 500;
           a_fontsize := 18; a_color := "#80ff80";
           a_patch_size := 10; a_patch_diameter_pix := Fin (IZR 10);
           a_box := (495, 505, 495, 505)%Z |} ].
Proof.
  unfold annotate_row. rewrite min_patch_size_1000.
  unfold patch_of_row, estimate_patch, angular_size_of.
  cbn [row galdim_majaxis isnan TYPE main_id].
  change (("M" =? "M")%string) with true. cbv iota.
  change (("M1" =? "M8")%string) with false.
  change (("M1" =? "M40")%string) with false.
  change (("M1" =? "M43")%string) with false.
  change (("M1" =? "M78")%string) with false.
  change (("M1" =? "M82")%string) with false. cbv iota.
  unfold fis_zero. destruct (Req_dec_T 0 0) as [_ | C]; [| exfalso; apply C; reflexivity].
  reflexivity.
Qed.

Lemma thumbnail_box_inside_image_witness :
  (0 <= 495 <= 505)%Z /\ (505 <= 1000)%Z /\ (0 <= 495 <= 505)%Z /\ (505 <= 1000)%Z
  /\ (505 - 495 = 505 - 495)%Z
  /\ (495 + 505 = 2 * 500)%Z /\ (495 + 505 = 2 * (1000 - 500))%Z
  /\ (505 - 495 <= 10)%Z
  /\ (min_patch_size 1000 1000 - 1 <= 505 - 495)%Z.
Proof.
  apply (thumbnail_box_inside_image (flat_world 100 test_files) 1000 1000
           (interface_catalogs false) "Andromeda" Boxes Boxes 0
           (mkPRow (mkRow "M1" (Fin 5) (Fin 5) "M" NaN)
                   (Fin (100 * 5), Fin (100 * 5)) 500 500)
           {| a_text := "1"; a_main_id := "M1"; a_px := 500; a_py := 500;
              a_fontsize := 18; a_color := "#80ff80";
              a_patch_size := 10; a_patch_diameter_pix := Fin (IZR 10);
              a_box := (495, 505, 495, 505)%Z |}).
  - lia.
  - lia.
  - unfold bounds_ok. rewrite min_patch_size_1000. reflexivity.
  - rewrite test_annotate_row. left. reflexivity.
Defined.

(** ** What a run draws *)

Lemma filter_none {A : Type} (f g : A -> bool) (l : list A) :
  forallb g l = true -> (forall a, g a = true -> f a = false) -> filter f l = [].
Proof.
  intros Hl Hfg. induction l as [| a l IH]; [reflexivity |].
  cbn in *. apply andb_prop in Hl as [Ha Hl]. rewrite (Hfg a Ha). apply IH. exact Hl.
Qed.

Lemma annotate_rows_counts (w : World) (W H : Z) (catalogs : Catalogs)
      (main_object : string) (shape : Shape) (dfi : list PRow) :
  forall i,
    List.length (filter is_annotate (annotate_rows w W H catalogs main_object shape i dfi))
    = List.length dfi
    /\ filter is_thumbnail (annotate_rows w W H catalogs main_object shape i dfi) = []
    /\ filter is_logo (annotate_rows w W H catalogs main_object shape i dfi) = [].
Proof.
  induction dfi as [| p dfi IH]; intros i; cbn [annotate_rows]; [auto |].
  destruct (IH (S i)) as (IH1 & IH2 & IH3).
  destruct (annotate_row_annotation w W H catalogs main_object shape i p)
    as (logs & text & fontsize & color1 & -> & Hlogs).
  rewrite !filter_app, IH2, IH3, !length_app, IH1.
  rewrite (filter_none is_annotate _ logs Hlogs) by (intros []; cbn; congruence).
  rewrite (filter_none is_thumbnail _ logs Hlogs) by (intros []; cbn; congruence).
  rewrite (filter_none is_logo _ logs Hlogs) by (intros []; cbn; congruence).
  cbn. auto.
Qed.

Lemma thumbnails_counts (dft : list PRow) :
  forall i,
    List.length (filter is_thumbnail (thumbnails i dft)) = List.length dft
    /\ filter is_annotate (thumbnails i dft) = []
    /\ filter is_logo (thumbnails i dft) = [].
Proof.
  induction dft as [| p dft IH]; intros i; cbn; [auto |].
  destruct (IH (S i)) as (-> & -> & ->). auto.
Qed.

Lemma render_table_counts (logo_path : string) (dfi : list PRow) :
  List.length (filter is_thumbnail (render_table logo_path dfi)) = List.length dfi
  /\ filter is_annotate (render_table logo_path dfi) = [].
Proof.
  unfold render_table. destruct (grid_size _ _) as [nrows ncols].
  destruct (thumbnails_counts dfi 0) as (H1 & H2 & _).
  cbn [filter is_thumbnail is_annotate]. rewrite !filter_app, H2, !length_app, H1.
  destruct (_ && _); cbn; split; (lia || reflexivity).
Qed.

Lemma render_log_counts (w : World) (W H : Z) (catalogs : Catalogs)
      (main_object logo_path : string) (shape : Shape) (rows : list PRow) :
  let log := annotate_rows w W H catalogs main_object shape 0 rows
             ++ [EvSavefig Overlay] ++ render_table logo_path rows
             ++ [EvImageSave Combined] in
  List.length (filter is_annotate log) = List.length rows
  /\ List.length (filter is_thumbnail log) = List.length rows
  /\ existsb is_render log = true
  /\ In (EvSavefig Overlay) log /\ In (EvSavefig Table) log
  /\ In (EvImageSave Combined) log.
Proof.
  intros log. subst log.
  destruct (annotate_rows_counts w W H catalogs main_object shape rows 0)
    as (A1 & A2 & _).
  destruct (render_table_counts logo_path rows) as (T1 & T2).
  rewrite !filter_app, A2, T2, !length_app, A1, T1. cbn [filter is_annotate is_thumbnail
    List.length app].
  split; [lia |]. split; [lia |]. split.
  - rewrite !existsb_app. cbn. apply orb_true_r.
  - unfold render_table. destruct (grid_size _ _) as [nrows ncols].
    repeat split; rewrite ?in_app_iff; cbn; rewrite ?in_app_iff; cbn; auto 10.
Qed.

Lemma annotate_fit_cases (w : World) (W H : Z) (catalogs : Catalogs)
      (title logo_path overlay_type : string) (n : Z) (log : list event) :
  annotate_fit w W H catalogs title logo_path overlay_type = Ok (n, log) ->
  (n = 0%Z /\ exists s, log = [EvPrint s])
  \/ (exists rows,
        n = Z.of_nat (List.length rows) /\ (0 < n)%Z
        /\ log = annotate_rows w W H catalogs title (shape_of overlay_type) 0 rows
                 ++ [EvSavefig Overlay] ++ render_table logo_path rows
                 ++ [EvImageSave Combined]).
Proof.
  unfold annotate_fit.
  destruct (load_frames w W H catalogs) as [df_list | msg]; cbn [bind]; [| discriminate].
  destruct df_list as [| d l].
  { intros E. injection E as <- <-. left. split; [reflexivity | eexists; reflexivity]. }
  destruct (merged_has_columns w catalogs); [| discriminate].
  destruct (working_set w W H catalogs (List.concat (d :: l))) as [dfi | msg];
    cbn [bind]; [| discriminate].
  destruct dfi as [| p dfi].
  { intros E. injection E as <- <-. left. split; [reflexivity | eexists; reflexivity]. }
  change (List.length (p :: dfi) =? 0)%nat with false. cbv iota.
  intros E. right. exists (ordered catalogs (p :: dfi)).
  pose proof (f_equal (fun o => match o with Ok (a, _) => a | Raise _ => 0%Z end) E) as En.
  pose proof (f_equal (fun o => match o with Ok (_, b) => b | Raise _ => [] end) E) as El.
  cbv beta iota in En, El. clear E.
  split; [symmetry; exact En |]. split; [| symmetry; exact El].
  rewrite <- En, ordered_length. cbn [List.length]. lia.
Qed.

(** X17: the count [annotate_fit] returns is the number of shapes it
    drew and the number of thumbnails; it is 0 exactly when nothing was
    drawn or written, and otherwise the three images were written. *)
Theorem count_is_the_number_of_shapes_and_thumbnails
        (w : World) (W H : Z) (catalogs : Catalogs)
        (title logo_path overlay_type : string) (n : Z) (log : list event) :
  annotate_fit w W H catalogs title logo_path overlay_type = Ok (n, log) ->
  n = Z.of_nat (List.length (filter is_annotate log))
  /\ n = Z.of_nat (List.length (filter is_thumbnail log))
  /\ (n = 0%Z <-> existsb is_render log = false)
  /\ (n <> 0%Z -> In (EvSavefig Overlay) log /\ In (EvSavefig Table) log
                  /\ In (EvImageSave Combined) log).
Proof.
  intros E.
  destruct (annotate_fit_cases _ _ _ _ _ _ _ _ _ E) as [[-> [s ->]] | (rows & Hn & Hpos & ->)].
  - cbn. repeat split; auto; contradiction.
  - pose proof (render_log_counts w W H catalogs title logo_path (shape_of overlay_type) rows)
      as HL.
    cbv zeta in HL. destruct HL as (H1 & H2 & H3 & H4).
    rewrite H1, H2, H3.
    split; [exact Hn |]. split; [exact Hn |]. split; [| intros _; exact H4].
    split; [lia | discriminate].
Qed.

Lemma count_is_the_number_of_shapes_and_thumbnails_witness :
  exists log,
    1%Z = Z.of_nat (List.length (filter is_annotate log))
    /\ 1%Z = Z.of_nat (List.length (filter is_thumbnail log))
    /\ (1%Z = 0%Z <-> existsb is_render log = false)
    /\ (1%Z <> 0%Z -> In (EvSavefig Overlay) log /\ In (EvSavefig Table) log
                      /\ In (EvImageSave Combined) log).
Proof.
  eexists.
  apply (count_is_the_number_of_shapes_and_thumbnails
           (flat_world 100 test_files) 1000 1000 (interface_catalogs false)
           "Andromeda" "" "boxes").
  exact annotate_test_image.
Defined.

(** X18: the logo is drawn exactly when a logo path is given and the
    number of rows is no multiple of the number of columns,
    [max(6, floor(sqrt(n)))]: with a full last row it is left out. *)
Theorem logo_needs_a_free_cell (logo_path : string) (dfi : list PRow) :
  let n := Z.of_nat (List.length dfi) in
  let ncols := Z.max 6 (Z.sqrt n) in
  existsb is_logo (render_table logo_path dfi)
  = negb (String.eqb logo_path "") && negb (n mod ncols =? 0)%Z.
Proof.
  intros n ncols. unfold render_table. fold n.
  rewrite grid_size_on_integers by lia. unfold grid_size_int.
  destruct (thumbnails_counts dfi 0) as (_ & _ & T3).
  assert (existsb is_logo (thumbnails 0 dfi) = false) as Hth.
  { destruct (existsb is_logo (thumbnails 0 dfi)) eqn:E; [| reflexivity].
    apply existsb_exists in E as [e [Hin He]].
    assert (In e (filter is_logo (thumbnails 0 dfi))) as C
        by (apply filter_In; auto).
    rewrite T3 in C. destruct C. }
  cbn [existsb is_logo orb]. rewrite !existsb_app, Hth. cbn [orb].
  destruct (logo_path =? "")%string; cbn [negb andb]; [reflexivity |].
  fold ncols. set (nrows := ((n + ncols - 1) / ncols)%Z).
  assert (0 < ncols)%Z as Hc by (subst ncols; lia).
  pose proof (Z.div_mod n ncols ltac:(lia)) as Hdm.
  pose proof (Z.mod_pos_bound n ncols Hc) as Hr.
  destruct (n mod ncols =? 0)%Z eqn:Em.
  - apply Z.eqb_eq in Em.
    assert (nrows = n / ncols)%Z as ->.
    { subst nrows. symmetry. apply (Z.div_unique_pos _ _ _ (ncols - 1)); lia. }
    assert ((n <? n / ncols * ncols)%Z = false) as ->; [| reflexivity].
    apply Z.ltb_ge. lia.
  - apply Z.eqb_neq in Em.
    assert (nrows = n / ncols + 1)%Z as ->.
    { subst nrows. symmetry. apply (Z.div_unique_pos _ _ _ (n mod ncols - 1)); lia. }
    assert ((n <? (n / ncols + 1) * ncols)%Z = true) as ->; [| reflexivity].
    apply Z.ltb_lt. lia.
Qed.

(** ** The selection buttons *)

Lemma filter_types_set_checkbox (b : CatalogEntry -> bool) (c : Catalogs) :
  filter_types (map_entries (set_checkbox b) c)
  = keys (filter (fun ke => b (snd ke)) c).
Proof.
  unfold filter_types, keys, map_entries.
  induction c as [| [k e] c IH]; [reflexivity |]. cbn [map filter fst snd].
  unfold get_selected at 1. cbn [set_checkbox checkbox_var].
  destruct (b e); cbn [map fst]; rewrite IH; reflexivity.
Qed.

Lemma keys_map_entries (f : CatalogEntry -> CatalogEntry) (c : Catalogs) :
  keys (map_entries f c) = keys c.
Proof. unfold keys, map_entries. rewrite map_map. reflexivity. Qed.

Lemma select_default_after (b : CatalogEntry -> bool) (c : Catalogs) :
  select_default (map_entries (set_checkbox b) c) = create_widgets c.
Proof.
  unfold select_default, create_widgets, map_entries. rewrite map_map.
  apply map_ext. intros [k e]. reflexivity.
Qed.

Lemma has_check_boxes_set (b : CatalogEntry -> bool) (c : Catalogs) :
  has_check_boxes (map_entries (set_checkbox b) c) = true.
Proof.
  unfold has_check_boxes, map_entries.
  induction c as [| ke c IH]; [reflexivity | exact IH].
Qed.

(** X19: [create_widgets] gives every catalog a check box set to its
    default, so a GUI run starts with the selection of a command line
    run; once the check boxes exist, the buttons All, None and Defaults
    select every catalog, none, and those with a true default, whatever
    was selected before, keep the registry order and the check boxes,
    and Defaults undoes All and None. *)
Theorem selection_buttons (c : Catalogs) :
  (has_check_boxes (create_widgets c) = true
   /\ keys (create_widgets c) = keys c
   /\ filter_types (create_widgets c)
      = keys (filter (fun ke => selection_default (snd ke)) c)
   /\ (Forall (fun ke => checkbox_var (snd ke) = None) c ->
       filter_types (create_widgets c) = filter_types c))
  /\ (has_check_boxes c = true ->
      filter_types (select_all c) = keys c
      /\ filter_types (select_none c) = []
      /\ filter_types (select_default c)
         = keys (filter (fun ke => selection_default (snd ke)) c)
      /\ keys (select_all c) = keys c /\ keys (select_none c) = keys c
      /\ keys (select_default c) = keys c
      /\ has_check_boxes (select_all c) = true
      /\ has_check_boxes (select_none c) = true
      /\ has_check_boxes (select_default c) = true
      /\ select_default (select_all c) = select_default c
      /\ select_default (select_none c) = select_default c).
Proof.
  split.
  - split; [| split; [| split]].
    + apply has_check_boxes_set.
    + apply keys_map_entries.
    + apply filter_types_set_checkbox.
    + intros Hnone. unfold create_widgets. rewrite filter_types_set_checkbox.
      unfold filter_types. f_equal.
      induction Hnone as [| [k e] c' He _ IH]; [reflexivity |]. cbn [filter snd] in *.
      unfold get_selected at 1. rewrite He, IH. reflexivity.
  - intros _.
    split; [| split; [| split; [| split; [| split; [| split; [| split; [| split;
      [| split; [| split]]]]]]]]].
    + unfold select_all. rewrite filter_types_set_checkbox. f_equal.
      induction c as [| ke c IH]; [reflexivity | cbn; rewrite IH; reflexivity].
    + unfold select_none. rewrite filter_types_set_checkbox.
      induction c as [| ke c IH]; [reflexivity | exact IH].
    + apply filter_types_set_checkbox.
    + apply keys_map_entries.
    + apply keys_map_entries.
    + apply keys_map_entries.
    + apply has_check_boxes_set.
    + apply has_check_boxes_set.
    + apply has_check_boxes_set.
    + apply select_default_after.
    + apply select_default_after.
Qed.

Lemma selection_buttons_witness :
  filter_types (create_widgets registry) = [ "M"%string; "IC"%string; "NGC"%string ]
  /\ List.length (filter_types (select_all (create_widgets registry))) = 19%nat
  /\ filter_types (select_none (create_widgets registry)) = []
  /\ filter_types (select_default (select_all (create_widgets registry)))
     = [ "M"%string; "IC"%string; "NGC"%string ].
Proof.
  pose proof (proj1 (selection_buttons registry)) as (_ & _ & Hstart & _).
  pose proof (proj2 (selection_buttons (create_widgets registry)) eq_refl)
    as (Hall & Hnone & _).
  pose proof (proj2 (selection_buttons (select_all (create_widgets registry))) eq_refl)
    as (_ & _ & Hdef & _).
  split; [| split; [| split]].
  - rewrite Hstart. reflexivity.
  - rewrite Hall. reflexivity.
  - exact Hnone.
  - rewrite Hdef. reflexivity.
Defined.

(** ** The driver *)

(** X20: a command line run (no widgets) that annotates at least one
    object writes its three images, logs the success, and then ends in
    the AttributeError for [load_in_siril], which [apply_changes] does
    not catch. *)
Theorem cli_run_ends_in_attribute_error (is_sep : ascii -> bool) (w : World)
        (host : Host) (self : Interface) (W H found : Z) (log : list event) :
  widgets self = None ->
  host_lock host = Ok tt ->
  host_image host = Ok (W, H) ->
  plate_solved host = true ->
  annotate_fit w W H (catalogs_of self) (cli_title (cli_args self))
               (cli_logo_path (cli_args self)) (cli_overlay_type (cli_args self))
  = Ok (found, log) ->
  (0 < found)%Z ->
  apply_changes is_sep w host self true
  = (map DrvRun log ++ [DrvLog "Annotations image created successfully."],
     Some (missing_attribute "load_in_siril"))
  /\ In (EvSavefig Overlay) log /\ In (EvSavefig Table) log
  /\ In (EvImageSave Combined) log.
Proof.
  intros Hw Hl Hi Hp Ha Hf. split.
  - unfold apply_changes. rewrite Hl, Hi, Hp, Ha, Hw. cbn [negb app].
    assert ((0 <? found)%Z = true) as -> by (apply Z.ltb_lt; exact Hf).
    reflexivity.
  - destruct (annotate_fit_cases _ _ _ _ _ _ _ _ _ Ha) as [[-> _] | (rows & _ & _ & ->)];
      [lia |].
    apply (render_log_counts w W H (catalogs_of self) (cli_title (cli_args self))
             (cli_logo_path (cli_args self)) (shape_of (cli_overlay_type (cli_args self)))
             rows).
Qed.

Lemma cli_run_ends_in_attribute_error_witness :
  exists log,
    (apply_changes posix_sep (flat_world 100 test_files) test_host cli_interface true
     = (map DrvRun log ++ [DrvLog "Annotations image created successfully."],
        Some (missing_attribute "load_in_siril"))
     /\ In (EvSavefig Overlay) log /\ In (EvSavefig Table) log
     /\ In (EvImageSave Combined) log).
Proof.
  eexists.
  apply (cli_run_ends_in_attribute_error posix_sep (flat_world 100 test_files)
           test_host cli_interface 1000 1000 1); try reflexivity.
  exact annotate_test_image.
Defined.

(** X21: a failure of the Simbad query is no [SirilError]:
    [apply_changes] does not catch it, from the command line or from the
    GUI, where the options were saved before. *)
Theorem simbad_failure_escapes_the_driver (is_sep : ascii -> bool) (w : World)
        (host : Host) (self : Interface) (W H : Z) (msg : string) :
  host_lock host = Ok tt ->
  host_image host = Ok (W, H) ->
  plate_solved host = true ->
  simbad_catalogs (catalogs_of self) <> [] ->
  query_region w (pix2radec w (IZR W / 2) (IZR H / 2)) (radius_deg w W H)
               (minsize_arcmin w) = Raise msg ->
  apply_changes is_sep w host self true = ([], Some (OtherError msg))
  /\ forall g, widgets self = Some g ->
               apply_changes is_sep w host self false
               = ([DrvSaveConfig (wg_logo_path g) (wg_overlay_alpha g) (wg_overlay_type g)],
                  Some (OtherError msg)).
Proof.
  intros Hl Hi Hp Hs Hq. split.
  - unfold apply_changes. rewrite Hl, Hi, Hp. cbn [negb].
    unfold annotate_fit.
    rewrite (load_frames_query_failure w W H (catalogs_of self) msg Hs Hq).
    reflexivity.
  - intros g Hg. unfold apply_changes. rewrite Hl, Hg, Hi, Hp. cbn [negb].
    unfold annotate_fit.
    rewrite (load_frames_query_failure w W H (catalogs_of self) msg Hs Hq).
    reflexivity.
Qed.

Lemma simbad_failure_escapes_the_driver_witness :
  apply_changes posix_sep (offline_world 100 test_files) test_host gui_interface true
  = ([], Some (OtherError "Read timed out."))
  /\ forall g, widgets gui_interface = Some g ->
               apply_changes posix_sep (offline_world 100 test_files) test_host
                             gui_interface false
               = ([DrvSaveConfig (wg_logo_path g) (wg_overlay_alpha g) (wg_overlay_type g)],
                  Some (OtherError "Read timed out.")).
Proof.
  apply (simbad_failure_escapes_the_driver posix_sep (offline_world 100 test_files)
           test_host gui_interface 1000 1000 "Read timed out."); try reflexivity.
  discriminate.
Defined.
